(** * mqtt-noisemeter: the ring buffer, the level analyser and the
    publishing loop of [src/main.py], embedded and verified.

    Conventions of the embedding.
    - Python integers are [Z]; [%] is [Z.modulo] (floor modulo, as in Python)
      and raises [ZeroDivisionError] on a zero divisor.
    - Durations and wall-clock times ([analysis_window], [time.time()]) are
      rationals [Q]; [int(...)] of a product is truncation toward zero of the
      exact product.  This is the exact reading, used where a property is
      about a number of samples.  The reading in IEEE double precision, in
      which [int(self.sample_rate * duration_seconds)] truncates the rounded
      product, is [Module Double]; what is said about the step from seconds
      to a number of samples is said there.
    - Audio samples and decibel values are real numbers [R]: the arithmetic
      of [numpy] is taken exactly, without rounding, NaN or infinities.  This
      is the exact reading, used where values are compared.
      [calculate_db_from_samples] over the arithmetic as numpy computes it,
      with its operations as parameters, is [Module AsComputed]; the exact
      reading is the instance [exact_numpy] of it.
    - A numpy array is a [list R]; slicing and slice assignment follow
      Python's rules (clamping, negative indices, shape check).
    - A method that mutates [self] is a function from the object's state to
      the state at exit together with its outcome (a value or an exception). *)

From Stdlib Require Import ZArith List Lia Bool QArith Qround Reals Lra.
From Stdlib Require String Ascii.
From Stdlib Require Floats.PrimFloat Floats.FloatOps Floats.SpecFloat.
Import ListNotations.

Local Open Scope Z_scope.

(** ** Python primitives *)

Module Py.

Inductive exn : Type :=
| ValueError
| ZeroDivisionError
| IndexError
| OverflowError.

Inductive result (A : Type) : Type :=
| Ok (a : A)
| Raise (e : exn).

Arguments Ok {A} a.
Arguments Raise {A} e.

Section Sequences.
Context {A : Type}.

Definition len (l : list A) : Z := Z.of_nat (length l).

(** Position denoted by a slice bound [i] on a sequence of length [n]. *)
Definition norm_index (n i : Z) : Z :=
  if i <? 0 then Z.max 0 (n + i) else Z.min i n.

(** [l[lo:hi]] *)
Definition slice (l : list A) (lo hi : Z) : list A :=
  let a := norm_index (len l) lo in
  let b := norm_index (len l) hi in
  firstn (Z.to_nat (b - a)) (skipn (Z.to_nat a) l).

(** [l[lo:]] *)
Definition slice_from (l : list A) (lo : Z) : list A :=
  skipn (Z.to_nat (norm_index (len l) lo)) l.

(** [l[:hi]] *)
Definition slice_to (l : list A) (hi : Z) : list A :=
  firstn (Z.to_nat (norm_index (len l) hi)) l.

(** numpy's [buf[a:b] = src] on positions [a <= b] already normalised:
    the shapes must agree, except that a one-element source is broadcast. *)
Definition assign_range (buf : list A) (a b : Z) (src : list A)
  : result (list A) :=
  let b := Z.max a b in
  if len src =? b - a then
    Ok (firstn (Z.to_nat a) buf ++ src ++ skipn (Z.to_nat b) buf)
  else
    match src with
    | [x] => Ok (firstn (Z.to_nat a) buf
                   ++ repeat x (Z.to_nat (b - a))
                   ++ skipn (Z.to_nat b) buf)
    | _ => Raise ValueError
    end.

(** [buf[lo:hi] = src] *)
Definition assign_slice (buf : list A) (lo hi : Z) (src : list A) :=
  assign_range buf (norm_index (len buf) lo) (norm_index (len buf) hi) src.

(** [buf[lo:] = src] *)
Definition assign_slice_from (buf : list A) (lo : Z) (src : list A) :=
  assign_range buf (norm_index (len buf) lo) (len buf) src.

(** [buf[:hi] = src] *)
Definition assign_slice_to (buf : list A) (hi : Z) (src : list A) :=
  assign_range buf 0 (norm_index (len buf) hi) src.

End Sequences.

(** [a % b] *)
Definition pymod (a b : Z) : result Z :=
  if b =? 0 then Raise ZeroDivisionError else Ok (a mod b).

(** [int(q)]: truncation toward zero. *)
Definition int (q : Q) : Z := Z.quot (Qnum q) (Z.pos (Qden q)).

(** [range(0, stop, step)] with its error on a zero step. *)
Definition range0 (stop step : Z) : result (list Z) :=
  if step =? 0 then Raise ValueError
  else if (step <? 0) || (stop <=? 0) then Ok []
  else Ok (map (fun j => Z.of_nat j * step)
             (seq 0 (Z.to_nat ((stop + step - 1) / step)))).

End Py.

Import Py.

(** ** The monitor object *)

Record NoiseMonitor : Type := mkMonitor {
  sample_rate : Z;
  channels : Z;
  buffer_duration : Q;
  publish_interval : Q;
  analysis_window : Q;
  buffer_size : Z;
  audio_buffer : list R;
  write_index : Z;
  overflow_count : Z;
  total_frames : Z;
  stream_start_time : option Q;
  ready_to_publish : bool
}.

Definition set_audio_buffer (b : list R) (s : NoiseMonitor) : NoiseMonitor :=
  mkMonitor (sample_rate s) (channels s) (buffer_duration s)
    (publish_interval s) (analysis_window s) (buffer_size s) b
    (write_index s) (overflow_count s) (total_frames s)
    (stream_start_time s) (ready_to_publish s).

Definition set_write_index (w : Z) (s : NoiseMonitor) : NoiseMonitor :=
  mkMonitor (sample_rate s) (channels s) (buffer_duration s)
    (publish_interval s) (analysis_window s) (buffer_size s) (audio_buffer s)
    w (overflow_count s) (total_frames s)
    (stream_start_time s) (ready_to_publish s).

Definition set_overflow_count (c : Z) (s : NoiseMonitor) : NoiseMonitor :=
  mkMonitor (sample_rate s) (channels s) (buffer_duration s)
    (publish_interval s) (analysis_window s) (buffer_size s) (audio_buffer s)
    (write_index s) c (total_frames s)
    (stream_start_time s) (ready_to_publish s).

Definition set_total_frames (t : Z) (s : NoiseMonitor) : NoiseMonitor :=
  mkMonitor (sample_rate s) (channels s) (buffer_duration s)
    (publish_interval s) (analysis_window s) (buffer_size s) (audio_buffer s)
    (write_index s) (overflow_count s) t
    (stream_start_time s) (ready_to_publish s).

Definition set_stream_start_time (t : option Q) (s : NoiseMonitor)
  : NoiseMonitor :=
  mkMonitor (sample_rate s) (channels s) (buffer_duration s)
    (publish_interval s) (analysis_window s) (buffer_size s) (audio_buffer s)
    (write_index s) (overflow_count s) (total_frames s)
    t (ready_to_publish s).

Definition set_ready_to_publish (r : bool) (s : NoiseMonitor) : NoiseMonitor :=
  mkMonitor (sample_rate s) (channels s) (buffer_duration s)
    (publish_interval s) (analysis_window s) (buffer_size s) (audio_buffer s)
    (write_index s) (overflow_count s) (total_frames s)
    (stream_start_time s) r.

(** ** Methods that mutate the object: state and exception *)

Definition M (A : Type) : Type := NoiseMonitor -> NoiseMonitor * result A.

Definition ret {A} (a : A) : M A := fun s => (s, Ok a).

Definition bind {A B} (m : M A) (k : A -> M B) : M B :=
  fun s =>
    match m s with
    | (s', Ok a) => k a s'
    | (s', Raise e) => (s', Raise e)
    end.

Definition get : M NoiseMonitor := fun s => (s, Ok s).

Definition modify (f : NoiseMonitor -> NoiseMonitor) : M unit :=
  fun s => (f s, Ok tt).

Definition lift {A} (r : result A) : M A := fun s => (s, r).

Notation "x <- m ;; k" := (bind m (fun x => k))
  (at level 61, m at next level, right associativity).
Notation "m ;;; k" := (bind m (fun _ => k))
  (at level 61, right associativity).

(** [self.audio_buffer[...] = src], the three forms the callback uses. *)
Definition store (assign : list R -> result (list R)) : M unit :=
  s <- get ;;
  b <- lift (assign (audio_buffer s)) ;;
  modify (set_audio_buffer b).

(** ** [setup_audio_device]: the part that sizes and zero-fills the buffer

    [default_samplerate] is the device's [default_samplerate]; the remaining
    arguments are the values [__init__] reads from the environment. *)
Definition setup_audio_device (chans : Z) (buf_dur pub_int win : Q)
    (default_samplerate : Q) : result NoiseMonitor :=
  let sr := int default_samplerate in
  let size := int (inject_Z sr * buf_dur) in
  if size <? 0 then Raise ValueError
  else Ok (mkMonitor sr chans buf_dur pub_int win size
             (repeat 0%R (Z.to_nat size)) 0 0 0 None false).

(** ** [audio_callback] *)

(** [indata[:, k]] on a block given as its list of frames. *)
Fixpoint column (k : nat) (indata : list (list R)) : result (list R) :=
  match indata with
  | [] => Ok []
  | row :: rest =>
      match nth_error row k, column k rest with
      | Some x, Ok xs => Ok (x :: xs)
      | None, _ => Raise IndexError
      | _, Raise e => Raise e
      end
  end.

(** Elementwise [(a + b) * 0.5] of two columns of one block. *)
Definition mix (a b : list R) : list R :=
  map (fun p => ((fst p + snd p) * 0.5)%R) (combine a b).

Definition mono_data (s : NoiseMonitor) (indata : list (list R))
  : result (list R) :=
  if channels s =? 1 then column 0 indata
  else
    match column 0 indata, column 1 indata with
    | Ok a, Ok b => Ok (mix a b)
    | Raise e, _ => Raise e
    | _, Raise e => Raise e
    end.

Definition audio_callback (indata : list (list R)) (frames : Z)
    (input_overflow : bool) : M unit :=
  (if input_overflow
   then modify (fun s => set_overflow_count (overflow_count s + 1) s)
   else ret tt) ;;;
  s <- get ;;
  mono <- lift (mono_data s indata) ;;
  let end_index := write_index s + frames in
  (if end_index <=? buffer_size s then
     store (fun buf => assign_slice buf (write_index s) end_index mono)
   else
     let first_part := buffer_size s - write_index s in
     store (fun buf =>
              assign_slice_from buf (write_index s)
                (slice_to mono first_part)) ;;;
     store (fun buf =>
              assign_slice_to buf (end_index - buffer_size s)
                (slice_from mono first_part))) ;;;
  w <- lift (pymod end_index (buffer_size s)) ;;
  modify (set_write_index w) ;;;
  modify (fun s' => set_total_frames (total_frames s' + frames) s').

(** One call of the callback as the stream makes it. *)
Record Block : Type := mkBlock {
  blk_indata : list (list R);
  blk_frames : Z;
  blk_overflow : bool
}.

(** The stream delivers blocks one after the other and aborts at the first
    exception of the callback. *)
Fixpoint deliver (blocks : list Block) : M unit :=
  match blocks with
  | [] => ret tt
  | b :: rest =>
      audio_callback (blk_indata b) (blk_frames b) (blk_overflow b) ;;;
      deliver rest
  end.

(** ** [get_recent_audio] *)

(** The exact reading: the duration is a rational and the product is not
    rounded before [int()] truncates it.  It fixes a number of samples; what
    [get_recent_audio] returns for that number is [read_recent] below, the
    same in both readings. *)
Definition samples_needed (s : NoiseMonitor) (duration_seconds : Q) : Z :=
  let n := int (inject_Z (sample_rate s) * duration_seconds) in
  if n >? buffer_size s then buffer_size s else n.

Definition get_recent_audio (s : NoiseMonitor) (duration_seconds : Q)
  : result (list R) :=
  let n := samples_needed s duration_seconds in
  match pymod (write_index s - n) (buffer_size s) with
  | Raise e => Raise e
  | Ok start_index =>
      if start_index <? write_index s then
        Ok (slice (audio_buffer s) start_index (write_index s))
      else
        Ok (slice_from (audio_buffer s) start_index
              ++ slice_to (audio_buffer s) (write_index s))
  end.

(** The part of [get_recent_audio] under the lock (the start index and the
    two [return] statements), for a number [n] of samples. *)
Definition read_recent (s : NoiseMonitor) (n : Z) : result (list R) :=
  match pymod (write_index s - n) (buffer_size s) with
  | Raise e => Raise e
  | Ok start_index =>
      if start_index <? write_index s then
        Ok (slice (audio_buffer s) start_index (write_index s))
      else
        Ok (slice_from (audio_buffer s) start_index
              ++ slice_to (audio_buffer s) (write_index s))
  end.

(** ** The step from seconds to samples in double precision

    [self.sample_rate] is a Python [int], the durations are Python [float]s
    (binary64): the product converts the integer, multiplies with one
    rounding, and [int()] truncates the rounded product toward zero. *)

Module Double.
Import Floats.PrimFloat Floats.FloatOps Floats.SpecFloat.

(** [float(z)]: the nearest double, ties to even; [OverflowError] beyond the
    range of the doubles. *)
Definition float_of_int (z : Z) : result float :=
  let f := SF2Prim (binary_normalize 53 1024 z 0 false) in
  if is_infinity f then Raise OverflowError else Ok f.

(** [int(x)]: truncation toward zero; [ValueError] on NaN and
    [OverflowError] on an infinity. *)
Definition int (x : float) : result Z :=
  match Prim2SF x with
  | S754_zero _ => Ok 0
  | S754_finite negative m e =>
      let magnitude :=
        match e with
        | Zneg p => Z.shiftr (Zpos m) (Zpos p)
        | _ => Z.shiftl (Zpos m) e
        end in
      Ok (if negative then - magnitude else magnitude)
  | S754_infinity _ => Raise OverflowError
  | S754_nan => Raise ValueError
  end.

(** The rational number a double is (0 for NaN and the infinities). *)
Definition exact (x : float) : Q :=
  match Prim2SF x with
  | S754_finite negative m e =>
      let magnitude :=
        match e with
        | Zneg p => Zpos m # (2 ^ p)
        | _ => inject_Z (Z.shiftl (Zpos m) e)
        end in
      Qred (if negative then - magnitude else magnitude)
  | _ => 0
  end.

(** [int(sample_rate * seconds)] *)
Definition int_of_product (sample_rate : Z) (seconds : float) : result Z :=
  match float_of_int sample_rate with
  | Raise e => Raise e
  | Ok rate => int (mul rate seconds)
  end.

(** The first three lines of [get_recent_audio]. *)
Definition samples_needed (s : NoiseMonitor) (duration_seconds : float)
  : result Z :=
  match int_of_product (sample_rate s) duration_seconds with
  | Raise e => Raise e
  | Ok n => Ok (if n >? buffer_size s then buffer_size s else n)
  end.

Definition get_recent_audio (s : NoiseMonitor) (duration_seconds : float)
  : result (list R) :=
  match samples_needed s duration_seconds with
  | Raise e => Raise e
  | Ok n => read_recent s n
  end.

(** The literal [0.1]: the double nearest to one tenth,
    [0x1.999999999999ap-4]. *)
#[local] Set Warnings "-inexact-float".
Definition tenth : float := 0.1.
#[local] Set Warnings "inexact-float".

(** [int(self.sample_rate * 0.1)], the chunk length of [analyze_audio]. *)
Definition chunk_size (s : NoiseMonitor) : result Z :=
  int_of_product (sample_rate s) tenth.

(** [setup_audio_device] with the durations as the doubles [__init__] read;
    the object keeps them as the rationals they are. *)
Definition setup_audio_device (chans : Z) (buf_dur pub_int win : float)
    (default_samplerate : float) : result NoiseMonitor :=
  match int default_samplerate with
  | Raise e => Raise e
  | Ok sr =>
      match int_of_product sr buf_dur with
      | Raise e => Raise e
      | Ok size =>
          if size <? 0 then Raise ValueError
          else Ok (mkMonitor sr chans (exact buf_dur) (exact pub_int)
                     (exact win) size (repeat 0%R (Z.to_nat size))
                     0 0 0 None false)
      end
  end.

End Double.

(** ** [calculate_db_from_samples] *)

Local Open Scope R_scope.

Definition np_sum (l : list R) : R := fold_right Rplus 0 l.

Definition np_mean (l : list R) : R := np_sum l / IZR (len l).

Definition log10 (x : R) : R := ln x / ln 10.

(** The silence floor and the threshold under which it is used. *)
Definition floor_db : R := -80.
Definition silence_rms : R := 1e-10.

(** [samples - np.mean(samples)] *)
Definition remove_dc (samples : list R) : list R :=
  map (fun x => x - np_mean samples) samples.

(** [np.sqrt(np.mean(samples ** 2))] *)
Definition rms_of (samples : list R) : R :=
  sqrt (np_mean (map (fun x => x ^ 2) samples)).

Definition calculate_db_from_samples (samples : list R) : R :=
  if (len samples =? 0)%Z then floor_db
  else
    let samples := remove_dc samples in
    let rms := rms_of samples in
    if Rgt_dec rms silence_rms then 20 * log10 rms else floor_db.

(** ** [calculate_db_from_samples] as numpy computes it

    The samples are [float32] and so is every intermediate result; none of
    the operations is exact.  They are the parameters of this model:
    what the function does with them is read off the source, what they
    compute is left to numpy. *)

Module AsComputed.

Record Numpy : Type := mkNumpy {
  scalar : Type;
  (** [np.mean(a)] of a non-empty array *)
  mean : list scalar -> scalar;
  (** [x - m], on each element of [samples - np.mean(samples)] *)
  minus : scalar -> scalar -> scalar;
  (** [x ** 2], on each element of [samples ** 2] *)
  squared : scalar -> scalar;
  (** [np.sqrt] *)
  root : scalar -> scalar;
  (** [np.log10] *)
  log10 : scalar -> scalar;
  (** [20 * x] *)
  times_20 : scalar -> scalar;
  (** [x > 1e-10] *)
  above_1e_10 : scalar -> bool;
  (** the constant [-80.0] *)
  minus_80 : scalar
}.

Section Decibels.
Variable np : Numpy.

(** [samples - np.mean(samples)] *)
Definition centred (samples : list (scalar np)) : list (scalar np) :=
  map (fun x => minus np x (mean np samples)) samples.

(** [np.sqrt(np.mean(samples ** 2))] *)
Definition rms (samples : list (scalar np)) : scalar np :=
  root np (mean np (map (squared np) samples)).

Definition calculate_db_from_samples (samples : list (scalar np))
  : scalar np :=
  if (len samples =? 0)%Z then minus_80 np
  else
    let samples := centred samples in
    let rms := rms samples in
    if above_1e_10 np rms then times_20 np (log10 np rms)
    else minus_80 np.


End Decibels.

End AsComputed.

(** The arithmetic taken exactly, on real numbers. *)
Definition exact_numpy : AsComputed.Numpy :=
  AsComputed.mkNumpy R np_mean Rminus (fun x => x ^ 2) sqrt log10 (Rmult 20)
    (fun x => if Rgt_dec x silence_rms then true else false) floor_db.

(** ** [analyze_audio] *)

Record LevelStats : Type := mkStats {
  min_db : R;
  max_db : R;
  avg_db : R;
  duration : R;
  overflows : Z
}.

Definition np_min (d : R) (ds : list R) : R := fold_left Rmin ds d.
Definition np_max (d : R) (ds : list R) : R := fold_left Rmax ds d.

(** [int(self.sample_rate * 0.1)] *)
Definition chunk_size (s : NoiseMonitor) : Z :=
  int (inject_Z (sample_rate s) * (1 # 10)).

(** [samples[i:i + chunk_size]] *)
Definition chunk_at (cs : Z) (samples : list R) (i : Z) : list R :=
  slice samples i (i + cs).

(** The test that lets a chunk into the statistics. *)
Definition chunk_valid (cs : Z) (chunk : list R) : bool :=
  (len chunk >=? cs / 2)%Z.

(** The body of the [for] loop: the list [db_values] it builds. *)
Definition db_values_of (cs : Z) (samples : list R) (starts : list Z)
  : list R :=
  flat_map
    (fun i =>
       let chunk := chunk_at cs samples i in
       if chunk_valid cs chunk then [calculate_db_from_samples chunk] else [])
    starts.

(** The statistics computed from an already extracted window: everything of
    [analyze_audio] after the call of [get_recent_audio], inside the [try]. *)
Definition analyze_window (s : NoiseMonitor) (samples : list R)
  : result (option LevelStats) :=
  if (len samples =? 0)%Z then Ok None
  else
    match range0 (len samples) (chunk_size s) with
    | Raise e => Raise e
    | Ok starts =>
        match db_values_of (chunk_size s) samples starts with
        | [] => Ok None
        | d :: ds =>
            let overall_db := calculate_db_from_samples samples in
            if (sample_rate s =? 0)%Z then Raise ZeroDivisionError
            else Ok (Some (mkStats (np_min d ds) (np_max d ds) overall_db
                             (IZR (len samples) / IZR (sample_rate s))
                             (overflow_count s)))
        end
    end.

(** The [try] block. *)
Definition analyze_audio_try (s : NoiseMonitor) : result (option LevelStats) :=
  match get_recent_audio s (analysis_window s) with
  | Raise e => Raise e
  | Ok samples => analyze_window s samples
  end.

(** [analyze_audio]: [except Exception] logs and returns [None]. *)
Definition analyze_audio (s : NoiseMonitor) : option LevelStats :=
  match analyze_audio_try s with
  | Ok r => r
  | Raise _ => None
  end.

Local Close Scope R_scope.

(** ** [processing_loop] *)

Inductive event : Type :=
| Published (data : LevelStats)
| Waited (timeout : Q).

(** Truth value of [self.stream_start_time]: [None] and [0.0] are false. *)
Definition time_is_set (t : option Q) : bool :=
  match t with
  | Some x => negb (Qeq_bool x 0)
  | None => false
  end.

(** [time.time() - self.stream_start_time >= self.analysis_window] *)
Definition window_elapsed (now : Q) (s : NoiseMonitor) : bool :=
  match stream_start_time s with
  | Some t0 => Qle_bool (analysis_window s) (now - t0)
  | None => false
  end.

(** The part of an iteration after the readiness check. *)
Definition analyze_and_publish (s : NoiseMonitor) : list event :=
  match analyze_audio s with
  | Some data => [Published data; Waited (publish_interval s)]
  | None => [Waited (publish_interval s)]
  end.

(** One iteration of the [while] loop, [now] being what [time.time()]
    returns in it. *)
Definition processing_iteration (now : Q) (s : NoiseMonitor)
  : NoiseMonitor * list event :=
  if negb (ready_to_publish s) then
    if time_is_set (stream_start_time s) && window_elapsed now s then
      let s' := set_ready_to_publish true s in
      (s', analyze_and_publish s')
    else (s, [Waited 1%Q])
  else (s, analyze_and_publish s).

(** What happens between two evaluations of the loop condition: the stream
    delivers some blocks, then the loop body runs at time [tick_now]. *)
Record Tick : Type := mkTick {
  tick_blocks : list Block;
  tick_now : Q
}.

Definition tick (t : Tick) (s : NoiseMonitor) : NoiseMonitor * list event :=
  processing_iteration (tick_now t) (fst (deliver (tick_blocks t) s)).

(** The loop until shutdown, as the list of its ticks. *)
Fixpoint processing_loop (ticks : list Tick) (s : NoiseMonitor)
  : NoiseMonitor * list event :=
  match ticks with
  | [] => (s, [])
  | t :: rest =>
      let (s1, ev1) := tick t s in
      let (s2, ev2) := processing_loop rest s1 in
      (s2, ev1 ++ ev2)
  end.

(** [run]: start of the stream at time [t0], then the loop. *)
Definition run (t0 : Q) (ticks : list Tick) (s : NoiseMonitor)
  : NoiseMonitor * list event :=
  processing_loop ticks (set_stream_start_time (Some t0) s).

(** ** The MQTT side: [publish_discovery], [publish_data], [on_mqtt_connect]

    A call of [self.mqtt_client.publish] is the message it sends; a method
    is the list of the messages it sends, in order.  The two serialisers the
    methods call, [json.dumps] and the format [.1f], are parameters. *)

Module Mqtt.
Import String.
Local Open Scope string_scope.

(** What [__init__] reads from the environment for the MQTT side. *)
Record Settings : Type := mkSettings {
  mqtt_topic_prefix : string;
  device_id : string;
  device_name : string
}.

Record Sensor : Type := mkSensor {
  sensor_name : string;
  friendly_name : string;
  sensor_icon : string
}.

Definition sensors : list Sensor :=
  [ mkSensor "min_db" "Minimum dB" "mdi:volume-low";
    mkSensor "max_db" "Maximum dB" "mdi:volume-high";
    mkSensor "avg_db" "Average dB" "mdi:volume-medium" ].

Record Device : Type := mkDevice {
  identifiers : list string;
  dev_name : string;
  model : string;
  manufacturer : string
}.

(** The [config] dictionary of one sensor. *)
Record Config : Type := mkConfig {
  name : string;
  unique_id : string;
  state_topic : string;
  unit_of_measurement : string;
  device_class : string;
  icon : string;
  device : Device
}.

Record Message : Type := mkMessage {
  topic : string;
  payload : string;
  retain : bool
}.

Definition config_of (st : Settings) (sensor : Sensor) : Config :=
  mkConfig
    (device_name st ++ " " ++ friendly_name sensor)
    (device_id st ++ "_" ++ sensor_name sensor)
    (mqtt_topic_prefix st ++ "/" ++ device_id st ++ "/" ++ sensor_name sensor)
    "dB"
    "sound_pressure"
    (sensor_icon sensor)
    (mkDevice [device_id st] (device_name st) "MQTT Noise Meter" "Custom").

Definition discovery_topic (st : Settings) (sensor : Sensor) : string :=
  "homeassistant/sensor/" ++ device_id st ++ "_" ++ sensor_name sensor
    ++ "/config".

(** [data.items()]: the keys in the order the dictionary was built. *)
Definition items (data : LevelStats) : list (string * R) :=
  [ ("min_db", min_db data);
    ("max_db", max_db data);
    ("avg_db", avg_db data);
    ("duration", duration data);
    ("overflows", IZR (overflows data)) ].

Definition published_keys : list string := ["min_db"; "max_db"; "avg_db"].

Section Serialisers.
Variable json_dumps : Config -> string.
Variable format_1f : R -> string.

Definition publish_discovery (st : Settings) : list Message :=
  map (fun sensor =>
         mkMessage (discovery_topic st sensor)
           (json_dumps (config_of st sensor)) true)
    sensors.

Definition publish_data (st : Settings) (data : option LevelStats)
  : list Message :=
  match data with
  | None => []
  | Some d =>
      flat_map
        (fun kv =>
           if existsb (String.eqb (fst kv)) published_keys then
             [mkMessage
                (mqtt_topic_prefix st ++ "/" ++ device_id st ++ "/" ++ fst kv)
                (format_1f (snd kv)) false]
           else [])
        (items d)
  end.

Definition on_mqtt_connect (st : Settings) (rc : Z) : list Message :=
  if (rc =? 0)%Z then publish_discovery st else [].

End Serialisers.

End Mqtt.

(** ** Notions the properties are stated with *)

(** The last [n] elements of a list. *)
Definition last_n {A : Type} (n : nat) (l : list A) : list A :=
  skipn (length l - n) l.

(** The object after [setup_audio_device] and any number of callbacks: a
    buffer of [buffer_size > 0] samples and a write index inside it. *)
Definition well_formed (s : NoiseMonitor) : Prop :=
  0 < buffer_size s
  /\ len (audio_buffer s) = buffer_size s
  /\ 0 <= write_index s < buffer_size s.

(** The buffer read in ring order, oldest sample first: from the write index
    to the end of the storage, then from its start to the write index. *)
Definition ring_view (s : NoiseMonitor) : list R :=
  skipn (Z.to_nat (write_index s)) (audio_buffer s)
    ++ firstn (Z.to_nat (write_index s)) (audio_buffer s).

(** The fields no method of the core changes after setup. *)
Definition same_config (s s' : NoiseMonitor) : Prop :=
  sample_rate s' = sample_rate s
  /\ channels s' = channels s
  /\ buffer_duration s' = buffer_duration s
  /\ publish_interval s' = publish_interval s
  /\ analysis_window s' = analysis_window s
  /\ buffer_size s' = buffer_size s
  /\ stream_start_time s' = stream_start_time s
  /\ ready_to_publish s' = ready_to_publish s.

(** A method that keeps those fields, however it ends. *)
Definition keeps_config {A} (m : M A) : Prop :=
  forall s, same_config s (fst (m s)).

(** A block of one channel carrying the samples [l]. *)
Definition mono_block (l : list R) : Block :=
  mkBlock (map (fun x => [x]) l) (len l) false.

(** Block [b] carries the mono samples [m] for the object [s]. *)
Definition carries (s : NoiseMonitor) (b : Block) (m : list R) : Prop :=
  mono_data s (blk_indata b) = Ok m /\ blk_frames b = len m.

(** The index [get_recent_audio] starts reading at, for [n] samples. *)
Definition start_index (s : NoiseMonitor) (n : Z) : Z :=
  (write_index s - n) mod buffer_size s.

(** [win] is a run of consecutive samples of [stream]. *)
Definition segment_of (win stream : list R) : Prop :=
  exists before after, stream = before ++ win ++ after.

(** Whether the chunk length computed in double precision is
    [sample_rate // 10], at each of the [n] sample rates from [rate] on. *)
Fixpoint chunk_sizes_agree (rate : Z) (n : nat) : bool :=
  match n with
  | O => true
  | S k =>
      match Double.int_of_product rate Double.tenth with
      | Ok c => if c =? rate / 10 then chunk_sizes_agree (rate + 1) k else false
      | Raise _ => false
      end
  end.

(** ** The two threads

    [audio_callback] runs on the capture thread, [get_recent_audio] on the
    processing thread.  Each method is the sequence of its steps on the
    shared object; a thread switch can fall between any two of them. *)

Inductive thread : Type := Capture | Processing.

Inductive op : Type :=
| AcquireLock               (* entry of [with self.buffer_lock] *)
| ReleaseLock               (* exit of the [with] block *)
| ComputeStart              (* [start_index = (self.write_index - n) % size] *)
| CompareStart              (* [if start_index < self.write_index] *)
| CopyOut                   (* the [return] of the chosen branch *)
| RunCallback (b : Block).  (* a whole call of [audio_callback] *)

(** The steps of [get_recent_audio] after [samples_needed] is computed. *)
Definition get_recent_audio_ops : list op :=
  [AcquireLock; ComputeStart; CompareStart; CopyOut; ReleaseLock].

(** The steps of [audio_callback]: it never touches [buffer_lock]. *)
Definition audio_callback_ops (b : Block) : list op := [RunCallback b].

Definition is_lock_op (o : op) : bool :=
  match o with
  | AcquireLock | ReleaseLock => true
  | _ => false
  end.

Definition takes_lock (ops : list op) : bool := existsb is_lock_op ops.

Record machine : Type := mkMachine {
  shared : NoiseMonitor;
  lock_owner : option thread;
  capture_ops : list op;
  processing_ops : list op;
  (* locals of the running [get_recent_audio] *)
  loc_n : Z;
  loc_start : Z;
  loc_no_wrap : bool;
  loc_result : option (list R);
  (* callbacks that ran while the reader held the lock *)
  inside_critical : nat
}.

Definition next_op (t : thread) (c : machine) : option op :=
  match t with
  | Capture => hd_error (capture_ops c)
  | Processing => hd_error (processing_ops c)
  end.

(** Thread [t] is done with its current operation. *)
Definition advance (t : thread) (c : machine) : machine :=
  match t with
  | Capture =>
      mkMachine (shared c) (lock_owner c) (tl (capture_ops c))
        (processing_ops c) (loc_n c) (loc_start c) (loc_no_wrap c)
        (loc_result c) (inside_critical c)
  | Processing =>
      mkMachine (shared c) (lock_owner c) (capture_ops c)
        (tl (processing_ops c)) (loc_n c) (loc_start c) (loc_no_wrap c)
        (loc_result c) (inside_critical c)
  end.

(** The reader leaves [get_recent_audio] on an exception. *)
Definition abandon_read (c : machine) : machine :=
  mkMachine (shared c) None (capture_ops c) [] (loc_n c) (loc_start c)
    (loc_no_wrap c) (loc_result c) (inside_critical c).

Definition set_lock_owner (o : option thread) (c : machine) : machine :=
  mkMachine (shared c) o (capture_ops c) (processing_ops c) (loc_n c)
    (loc_start c) (loc_no_wrap c) (loc_result c) (inside_critical c).

Definition set_shared (s : NoiseMonitor) (c : machine) : machine :=
  mkMachine s (lock_owner c) (capture_ops c) (processing_ops c) (loc_n c)
    (loc_start c) (loc_no_wrap c) (loc_result c) (inside_critical c).

Definition set_loc_start (st : Z) (c : machine) : machine :=
  mkMachine (shared c) (lock_owner c) (capture_ops c) (processing_ops c)
    (loc_n c) st (loc_no_wrap c) (loc_result c) (inside_critical c).

Definition set_loc_no_wrap (b : bool) (c : machine) : machine :=
  mkMachine (shared c) (lock_owner c) (capture_ops c) (processing_ops c)
    (loc_n c) (loc_start c) b (loc_result c) (inside_critical c).

Definition set_loc_result (win : list R) (c : machine) : machine :=
  mkMachine (shared c) (lock_owner c) (capture_ops c) (processing_ops c)
    (loc_n c) (loc_start c) (loc_no_wrap c) (Some win) (inside_critical c).

(** Count a callback that runs while the reader holds the lock. *)
Definition note_callback (c : machine) : machine :=
  mkMachine (shared c) (lock_owner c) (capture_ops c) (processing_ops c)
    (loc_n c) (loc_start c) (loc_no_wrap c) (loc_result c)
    (match lock_owner c with
     | Some Processing => S (inside_critical c)
     | _ => inside_critical c
     end).

Definition owned_by_other (t : thread) (owner : option thread) : bool :=
  match owner, t with
  | Some Capture, Processing | Some Processing, Capture => true
  | _, _ => false
  end.

(** One step of thread [t]: its next operation, or nothing when it has
    finished or waits for the lock. *)
Definition step (t : thread) (c : machine) : machine :=
  let s := shared c in
  match next_op t c with
  | None => c
  | Some AcquireLock =>
      if owned_by_other t (lock_owner c) then c
      else set_lock_owner (Some t) (advance t c)
  | Some ReleaseLock => set_lock_owner None (advance t c)
  | Some ComputeStart =>
      match pymod (write_index s - loc_n c) (buffer_size s) with
      | Ok st => set_loc_start st (advance t c)
      | Raise _ => abandon_read c
      end
  | Some CompareStart =>
      set_loc_no_wrap (loc_start c <? write_index s) (advance t c)
  | Some CopyOut =>
      set_loc_result
        (if loc_no_wrap c
         then slice (audio_buffer s) (loc_start c) (write_index s)
         else slice_from (audio_buffer s) (loc_start c)
                ++ slice_to (audio_buffer s) (write_index s))
        (advance t c)
  | Some (RunCallback b) =>
      set_shared
        (fst (audio_callback (blk_indata b) (blk_frames b) (blk_overflow b) s))
        (note_callback (advance t c))
  end.

(** A schedule is the order in which the threads get to run a step. *)
Fixpoint exec (schedule : list thread) (c : machine) : machine :=
  match schedule with
  | [] => c
  | t :: rest => exec rest (step t c)
  end.

(** One [get_recent_audio duration_seconds] on the processing thread while
    the stream delivers [blocks] on the capture thread. *)
Definition concurrent (s : NoiseMonitor) (duration_seconds : Q)
    (blocks : list Block) : machine :=
  mkMachine s None (flat_map audio_callback_ops blocks) get_recent_audio_ops
    (samples_needed s duration_seconds) 0 false None 0.

(** ** Objects used in the examples *)

(** A buffer of four samples (4 Hz, 1 s) right after setup. *)
Definition fresh4 : NoiseMonitor :=
  mkMonitor 4 1 1 5 1 4 [0; 0; 0; 0]%R 0 0 0 None false.

(** A buffer of ten samples (10 Hz, 1 s) holding the samples 1 to 10, the
    write index back at 0. *)
Definition full10 : NoiseMonitor :=
  mkMonitor 10 1 1 5 1 10 [1; 2; 3; 4; 5; 6; 7; 8; 9; 10]%R 0 0 10 None false.

(** A buffer of five samples at 5 Hz, a rate below 10. *)
Definition slow5 : NoiseMonitor :=
  mkMonitor 5 1 1 5 1 5 [1; 2; 3; 4; 5]%R 0 0 5 None false.


(** A buffer of four samples at 20 Hz (chunks of two samples): a loud chunk
    followed by a silent one; the analysis window is the whole buffer. *)
Definition half_loud : NoiseMonitor :=
  mkMonitor 20 1 (1 # 5) 5 (1 # 5) 4 [1; -1; 0; 0]%R 0 0 4 None false.

(** Monitors at 16 Hz and at 50 Hz, for the chunk length and the validity
    threshold. *)
Definition rate16 : NoiseMonitor :=
  mkMonitor 16 1 1 5 1 16 (repeat 0%R 16) 0 0 16 None false.

Definition rate50 : NoiseMonitor :=
  mkMonitor 50 1 1 5 1 50 (repeat 0%R 50) 0 0 50 None false.

(** The four-sample buffer after the samples 1 to 6 have been written in
    two blocks of three: it holds 3, 4, 5, 6 in ring order. *)
Definition ring6 : NoiseMonitor :=
  mkMonitor 4 1 1 5 1 4 [5; 6; 3; 4]%R 2 0 6 None false.

(** A read of the whole buffer on the processing thread during which a
    callback carrying the sample 7 runs: the reader takes the lock, computes
    the start index and compares it, the callback runs, the reader copies and
    releases the lock. *)
Definition interleaved : list thread :=
  [Processing; Processing; Processing; Capture; Processing; Processing].

(** A buffer of 100 samples (100 Hz, 1 s) right after setup. *)
Definition rate100 : NoiseMonitor :=
  mkMonitor 100 1 1 5 1 100 (repeat 0%R 100) 0 0 0 None false.


(** An active scheduler on a buffer of 40 zeros at 20 Hz, analysed over one
    second. *)
Definition active40 : NoiseMonitor :=
  mkMonitor 20 1 2 5 1 40 (repeat 0%R 40) 0 0 0 (Some 100%Q) true.

(** Durations as the doubles that [float(os.getenv(...))] gives for the
    decimal numerals. *)
Module Seconds.
Import Floats.PrimFloat.
#[local] Set Warnings "-inexact-float".

(** The sample rate 10 as [int * float] converts it. *)
Definition hz10 : float := 10.0.

Definition d1 : float := 1.0.
Definition d5 : float := 5.0.
Definition d4 : float := 4.0.
Definition d0 : float := 0.0.
Definition d0_5 : float := 0.5.
Definition minus_d0_5 : float := -0.5.
Definition d0_3 : float := 0.3.
Definition d0_29 : float := 0.29.
Definition d0_16 : float := 0.16.
Definition d0_01 : float := 0.01.

End Seconds.


(** ** The specification's wording, for comparison with the code *)

(** [round(q)]: to the nearest integer, ties to the even one. *)
Definition round_half_even (q : Q) : Z :=
  let f := Qfloor q in
  let twice := Qfloor (2 * (q - inject_Z f)) in
  if twice =? 0 then f
  else if Qeq_bool (q - inject_Z f) (1 # 2) then (if Z.even f then f else f + 1)
  else f + 1.

(** The spec's
    [samples_needed = min(capacity, round(seconds * sample_rate))]. *)
Definition spec_samples_needed (s : NoiseMonitor) (seconds : Q) : Z :=
  Z.min (buffer_size s) (round_half_even (seconds * inject_Z (sample_rate s))).

(** The spec's chunk length [round(sample_rate * chunk_seconds)] at 0.1 s. *)
Definition spec_chunk_size (s : NoiseMonitor) : Z :=
  round_half_even (inject_Z (sample_rate s) * (1 # 10)).

(** The spec's test: the length is at least half the target chunk length. *)
Definition spec_chunk_valid (cs : Z) (chunk : list R) : bool :=
  (cs <=? 2 * len chunk).

(** * Properties *)

(** ** Slices with bounds inside the sequence *)

Section SliceFacts.
Context {A : Type}.
Implicit Types l buf src : list A.

Lemma len_nonneg l : 0 <= len l.
Proof. unfold len; lia. Qed.

Lemma len_app l1 l2 : len (l1 ++ l2) = len l1 + len l2.
Proof. unfold len; rewrite length_app; lia. Qed.

Lemma norm_index_inside n i : 0 <= i <= n -> norm_index n i = i.
Proof.
  intros H; unfold norm_index.
  destruct (Z.ltb_spec i 0); lia.
Qed.

Lemma norm_index_beyond n i : 0 <= n <= i -> norm_index n i = n.
Proof.
  intros H; unfold norm_index.
  destruct (Z.ltb_spec i 0); lia.
Qed.

Lemma norm_index_range n i : 0 <= n -> 0 <= norm_index n i <= n.
Proof.
  intros H; unfold norm_index.
  destruct (Z.ltb_spec i 0); lia.
Qed.

Lemma slice_to_inside l i :
  0 <= i <= len l -> slice_to l i = firstn (Z.to_nat i) l.
Proof. intros H; unfold slice_to; now rewrite norm_index_inside. Qed.

Lemma slice_from_inside l i :
  0 <= i <= len l -> slice_from l i = skipn (Z.to_nat i) l.
Proof. intros H; unfold slice_from; now rewrite norm_index_inside. Qed.

Lemma slice_inside l i j :
  0 <= i <= j -> j <= len l ->
  slice l i j = firstn (Z.to_nat (j - i)) (skipn (Z.to_nat i) l).
Proof.
  intros H1 H2; unfold slice.
  rewrite !norm_index_inside by lia; reflexivity.
Qed.

Lemma len_slice_to l i : 0 <= i <= len l -> len (slice_to l i) = i.
Proof.
  intros H; rewrite slice_to_inside by assumption.
  unfold len in *; rewrite length_firstn; lia.
Qed.

Lemma len_slice_from l i : 0 <= i <= len l -> len (slice_from l i) = len l - i.
Proof.
  intros H; rewrite slice_from_inside by assumption.
  unfold len in *; rewrite length_skipn; lia.
Qed.

Lemma assign_range_fits buf a b src :
  a <= b -> len src = b - a ->
  assign_range buf a b src
  = Ok (firstn (Z.to_nat a) buf ++ src ++ skipn (Z.to_nat b) buf).
Proof.
  intros Hab Hlen; unfold assign_range.
  rewrite Z.max_r by lia.
  destruct (Z.eqb_spec (len src) (b - a)); [reflexivity | lia].
Qed.

Lemma assign_range_mismatch buf a b src :
  a <= b -> len src <> b - a -> len src <> 1 ->
  assign_range buf a b src = Raise ValueError.
Proof.
  intros Hab Hlen H1; unfold assign_range.
  rewrite Z.max_r by lia.
  destruct (Z.eqb_spec (len src) (b - a)); [lia |].
  destruct src as [| x [| y src]]; try reflexivity.
  exfalso; apply H1; reflexivity.
Qed.

Lemma last_n_app_exact l1 l2 : last_n (length l2) (l1 ++ l2) = l2.
Proof.
  unfold last_n; rewrite length_app, skipn_app.
  replace (length l1 + length l2 - length l2)%nat with (length l1) by lia.
  rewrite skipn_all, Nat.sub_diag; reflexivity.
Qed.

Lemma last_n_all n l : (length l <= n)%nat -> last_n n l = l.
Proof.
  intros H; unfold last_n.
  replace (length l - n)%nat with 0%nat by lia; reflexivity.
Qed.

Lemma length_last_n n l : length (last_n n l) = Nat.min n (length l).
Proof. unfold last_n; rewrite length_skipn; lia. Qed.

Lemma last_n_app_r n l1 l2 :
  (length l2 <= n)%nat ->
  last_n n (l1 ++ l2) = last_n (n - length l2) l1 ++ l2.
Proof.
  intros H; unfold last_n.
  rewrite length_app, skipn_app.
  replace (length l1 + length l2 - n - length l1)%nat with 0%nat by lia.
  replace (length l1 + length l2 - n)%nat
    with (length l1 - (n - length l2))%nat by lia.
  reflexivity.
Qed.

Lemma last_n_app_l n l1 l2 :
  (n <= length l2)%nat -> last_n n (l1 ++ l2) = last_n n l2.
Proof.
  intros H; unfold last_n.
  rewrite length_app, skipn_app.
  rewrite (skipn_all2 l1) by lia. simpl. f_equal. lia.
Qed.

Lemma last_n_last_n n l1 l2 :
  last_n n (last_n n l1 ++ l2) = last_n n (l1 ++ l2).
Proof.
  destruct (Nat.le_gt_cases (length l2) n) as [H | H].
  - rewrite !last_n_app_r by assumption.
    f_equal. unfold last_n.
    rewrite length_skipn, skipn_skipn. f_equal. lia.
  - unfold last_n. rewrite !length_app, !skipn_app, length_skipn.
    rewrite (skipn_all2 (skipn _ l1)) by (rewrite length_skipn; lia).
    rewrite (skipn_all2 l1) by lia.
    simpl. f_equal. lia.
Qed.

End SliceFacts.

(** ** The ring buffer as a list: one write, in ring order *)

Section RingLists.
Context {A : Type}.
Implicit Types buf m pre post l : list A.

Lemma firstn_app_exact n l1 l2 :
  length l1 = n -> firstn n (l1 ++ l2) = l1.
Proof.
  intros <-. rewrite firstn_app, Nat.sub_diag, firstn_all.
  simpl; apply app_nil_r.
Qed.

Lemma skipn_app_exact n l1 l2 :
  length l1 = n -> skipn n (l1 ++ l2) = l2.
Proof.
  intros <-. rewrite skipn_app, Nat.sub_diag, skipn_all; reflexivity.
Qed.

Lemma split_three buf a b :
  (a + b <= length buf)%nat ->
  exists pre mid rest,
    buf = pre ++ mid ++ rest /\ length pre = a /\ length mid = b
    /\ pre = firstn a buf /\ rest = skipn (a + b) buf.
Proof.
  intros H.
  exists (firstn a buf), (firstn b (skipn a buf)), (skipn (a + b) buf).
  repeat split.
  - rewrite <- (firstn_skipn a buf) at 1. f_equal.
    rewrite <- (firstn_skipn b (skipn a buf)) at 1. f_equal.
    rewrite skipn_skipn. f_equal. lia.
  - rewrite length_firstn; lia.
  - rewrite length_firstn, length_skipn; lia.
Qed.

(** A write that stays inside the storage. *)
Lemma ring_write_inside buf m (w w' : nat) :
  (w + length m <= length buf)%nat ->
  w' = (if (w + length m <? length buf)%nat then w + length m else 0)%nat ->
  let buf' := firstn w buf ++ m ++ skipn (w + length m) buf in
  length buf' = length buf
  /\ skipn w' buf' ++ firstn w' buf'
     = last_n (length buf) ((skipn w buf ++ firstn w buf) ++ m).
Proof.
  intros Hfit Hw'.
  destruct (split_three buf w (length m) Hfit)
    as (pre & mid & rest & Hbuf & Hpre & Hmid & Epre & Erest).
  cbv zeta. rewrite <- Epre, <- Erest.
  assert (Hlen : length buf = (w + length m + length rest)%nat).
  { rewrite Hbuf, !length_app; lia. }
  split.
  { rewrite !length_app; lia. }
  assert (Hold : skipn w buf = mid ++ rest).
  { rewrite Hbuf. now rewrite skipn_app_exact. }
  rewrite Hold. unfold last_n.
  replace (length (((mid ++ rest) ++ pre) ++ m) - length buf)%nat
    with (length mid) by (rewrite !length_app; lia).
  assert (Hr : skipn (length mid) (((mid ++ rest) ++ pre) ++ m)
               = rest ++ pre ++ m).
  { rewrite <- !app_assoc. now apply skipn_app_exact. }
  rewrite Hr.
  destruct (Nat.ltb_spec (w + length m) (length buf)) as [Hlt | Hge]; subst w'.
  - rewrite (app_assoc pre m rest).
    rewrite skipn_app_exact, firstn_app_exact
      by (rewrite length_app; lia).
    now rewrite <- ?app_assoc.
  - assert (Hn : rest = []) by (apply length_zero_iff_nil; lia).
    rewrite !Hn. simpl. now rewrite !app_nil_r.
Qed.

(** A write that wraps: the head goes to the end of the storage, the tail
    to its start. *)
Lemma ring_write_wrapped buf m (w e w' : nat) :
  (w < length buf)%nat ->
  (length buf < w + length m)%nat ->
  e = (w + length m - length buf)%nat ->
  (e <= length buf)%nat ->
  w' = (if (e <? length buf)%nat then e else 0)%nat ->
  let m1 := firstn (length buf - w) m in
  let m2 := skipn (length buf - w) m in
  let buf1 := firstn w buf ++ m1 ++ skipn (length buf) buf in
  let buf' := firstn 0 buf1 ++ m2 ++ skipn e buf1 in
  length m1 = (length buf - w)%nat
  /\ length buf1 = length buf
  /\ length m2 = e
  /\ length buf' = length buf
  /\ skipn w' buf' ++ firstn w' buf'
     = last_n (length buf) ((skipn w buf ++ firstn w buf) ++ m).
Proof.
  intros Hw Hwrap He Hecap Hw'. cbv zeta.
  set (m1 := firstn (length buf - w) m).
  set (m2 := skipn (length buf - w) m).
  assert (Hm : m = m1 ++ m2) by (symmetry; apply firstn_skipn).
  assert (Hm1 : length m1 = (length buf - w)%nat).
  { unfold m1; rewrite length_firstn; lia. }
  assert (Hm2 : length m2 = e).
  { unfold m2; rewrite length_skipn; lia. }
  set (pre := firstn w buf). set (post := skipn w buf).
  assert (Hpre : length pre = w) by (unfold pre; rewrite length_firstn; lia).
  assert (Hpost : length post = (length buf - w)%nat).
  { unfold post; rewrite length_skipn; lia. }
  rewrite (skipn_all buf), app_nil_r. simpl firstn. simpl app.
  assert (Hb1 : length (pre ++ m1) = length buf).
  { rewrite length_app; lia. }
  repeat split; try assumption.
  { rewrite length_app, length_skipn; lia. }
  unfold last_n.
  replace (length ((post ++ pre) ++ m) - length buf)%nat
    with (length post + e)%nat by (rewrite !length_app; lia).
  assert (Hr : skipn (length post + e) ((post ++ pre) ++ m)
               = skipn e (pre ++ m1) ++ m2).
  { rewrite Nat.add_comm, <- skipn_skipn, <- app_assoc.
    rewrite skipn_app_exact by reflexivity.
    rewrite Hm, app_assoc, (skipn_app e (pre ++ m1) m2).
    now replace (e - length (pre ++ m1))%nat with 0%nat by lia. }
  rewrite Hr.
  destruct (Nat.ltb_spec e (length buf)) as [Hlt | Hge]; subst w'.
  - now rewrite skipn_app_exact, firstn_app_exact.
  - rewrite (skipn_all2 (pre ++ m1)) by lia.
    simpl. now rewrite !app_nil_r.
Qed.

End RingLists.

(** ** [audio_callback]: what one call does to the ring *)

Lemma mono_data_mono_block s l :
  channels s = 1 -> mono_data s (blk_indata (mono_block l)) = Ok l.
Proof.
  intros Hc. unfold mono_data. rewrite Hc. simpl.
  induction l as [| x l IH]; simpl; [reflexivity | now rewrite IH].
Qed.

Lemma mono_data_overflow_count s c indata :
  mono_data (set_overflow_count c s) indata = mono_data s indata.
Proof. reflexivity. Qed.

Lemma bind_ok {A B} (m : M A) (k : A -> M B) s s' a :
  m s = (s', Ok a) -> bind m k s = k a s'.
Proof. intros H; unfold bind; now rewrite H. Qed.

Lemma bind_raise {A B} (m : M A) (k : A -> M B) s s' e :
  m s = (s', Raise e) -> bind m k s = (s', Raise e).
Proof. intros H; unfold bind; now rewrite H. Qed.

Lemma pymod_ok a b : b <> 0 -> pymod a b = Ok (a mod b).
Proof.
  intros H; unfold pymod. destruct (Z.eqb_spec b 0); [contradiction | easy].
Qed.

(** The write index after a write of [f] frames at [w], as a position. *)
Lemma wrapped_index_inside (w f cap : nat) :
  (w + f <= cap)%nat -> (0 < cap)%nat ->
  Z.to_nat ((Z.of_nat w + Z.of_nat f) mod Z.of_nat cap)
  = (if (w + f <? cap)%nat then w + f else 0)%nat.
Proof.
  intros H Hc. destruct (Nat.ltb_spec (w + f) cap) as [Hlt | Hge].
  - rewrite Z.mod_small by lia. lia.
  - replace (Z.of_nat w + Z.of_nat f) with (Z.of_nat cap) by lia.
    rewrite Z.mod_same by lia. reflexivity.
Qed.

Lemma wrapped_index_beyond (w f cap : nat) :
  (cap < w + f)%nat -> (w + f <= cap + cap)%nat ->
  Z.to_nat ((Z.of_nat w + Z.of_nat f) mod Z.of_nat cap)
  = (if (w + f - cap <? cap)%nat then w + f - cap else 0)%nat.
Proof.
  intros H Hc. destruct (Nat.ltb_spec (w + f - cap) cap) as [Hlt | Hge].
  - replace (Z.of_nat w + Z.of_nat f)
      with (Z.of_nat (w + f - cap) + 1 * Z.of_nat cap) by lia.
    rewrite Z.mod_add, Z.mod_small by lia. lia.
  - replace (Z.of_nat w + Z.of_nat f) with (0 + 2 * Z.of_nat cap) by lia.
    rewrite Z.mod_add by lia. reflexivity.
Qed.

Lemma audio_callback_fits indata frames ov s m :
  well_formed s ->
  mono_data s indata = Ok m ->
  frames = len m ->
  write_index s + frames <= 2 * buffer_size s ->
  exists s',
    audio_callback indata frames ov s = (s', Ok tt)
    /\ well_formed s'
    /\ same_config s s'
    /\ write_index s' = (write_index s + frames) mod buffer_size s
    /\ ring_view s' = last_n (Z.to_nat (buffer_size s)) (ring_view s ++ m)
    /\ total_frames s' = total_frames s + frames
    /\ overflow_count s' = overflow_count s + (if ov then 1 else 0).
Proof.
  intros (Hcap & Hlen & Hw) Hmono Hfr Hroom.
  destruct s as [sr ch bd pi aw cap buf w oc tf st rdy].
  cbn [buffer_size audio_buffer write_index total_frames overflow_count] in *.
  assert (Hmono' : forall oc',
             mono_data (mkMonitor sr ch bd pi aw cap buf w oc' tf st rdy) indata
             = Ok m) by (intros; exact Hmono).
  assert (Hmod : 0 <= (w + frames) mod cap < cap)
    by (apply Z.mod_pos_bound; lia).
  unfold len in Hlen, Hfr.
  set (wn := Z.to_nat w).
  assert (Ew : w = Z.of_nat wn) by lia.
  unfold audio_callback, bind, get, lift, modify, ret, store.
  assert (Hstep :
      exists buf',
        (let end_index := w + frames in
         (if end_index <=? cap
          then assign_slice buf w end_index m
          else match assign_slice_from buf w (slice_to m (cap - w)) with
               | Ok b1 => assign_slice_to b1 (end_index - cap)
                            (slice_from m (cap - w))
               | Raise e => Raise e
               end) = Ok buf')
        /\ len buf' = cap
        /\ skipn (Z.to_nat ((w + frames) mod cap)) buf'
             ++ firstn (Z.to_nat ((w + frames) mod cap)) buf'
           = last_n (Z.to_nat cap) ((skipn wn buf ++ firstn wn buf) ++ m)).
  { cbv zeta.
    destruct (Z.leb_spec (w + frames) cap) as [Hin | Hout].
    - destruct (ring_write_inside buf m wn
                  (Z.to_nat ((w + frames) mod cap))) as [L V].
      { lia. }
      { rewrite Ew, Hfr, <- Hlen. apply wrapped_index_inside; lia. }
      eexists. split; [| split].
      + unfold assign_slice.
        rewrite !norm_index_inside by (unfold len; lia).
        apply assign_range_fits; unfold len; lia.
      + unfold len.
        replace (Z.to_nat (w + frames)) with (wn + length m)%nat by lia.
        change (Z.to_nat w) with wn.
        rewrite L. exact Hlen.
      + change (Z.to_nat w) with wn.
        replace (Z.to_nat (w + frames)) with (wn + length m)%nat by lia.
        replace (Z.to_nat cap) with (length buf) by lia.
        exact V.
    - destruct (ring_write_wrapped buf m wn (wn + length m - length buf)
                  (Z.to_nat ((w + frames) mod cap)))
        as (L1 & Lb1 & L2 & L & V); try lia.
      { rewrite Ew, Hfr, <- Hlen. apply wrapped_index_beyond; lia. }
      assert (E1 : slice_to m (cap - w) = firstn (length buf - wn) m).
      { rewrite slice_to_inside by (unfold len; lia). f_equal; lia. }
      assert (E2 : slice_from m (cap - w) = skipn (length buf - wn) m).
      { rewrite slice_from_inside by (unfold len; lia). f_equal; lia. }
      rewrite E1, E2.
      unfold assign_slice_from.
      rewrite norm_index_inside by (unfold len; lia).
      rewrite assign_range_fits by (unfold len; lia).
      change (Z.to_nat w) with wn.
      replace (Z.to_nat (len buf)) with (length buf) by (unfold len; lia).
      unfold assign_slice_to.
      rewrite norm_index_inside by (unfold len; rewrite Lb1; lia).
      rewrite assign_range_fits by (unfold len; lia).
      replace (Z.to_nat (w + frames - cap))
        with (wn + length m - length buf)%nat by lia.
      change (Z.to_nat 0) with 0%nat.
      eexists. split; [reflexivity | split].
      + unfold len. rewrite L. exact Hlen.
      + replace (Z.to_nat cap) with (length buf) by lia. exact V. }
  destruct Hstep as (buf' & Hbuf' & Hlen' & Hview).
  cbv zeta in Hbuf'.
  exists (mkMonitor sr ch bd pi aw cap buf' ((w + frames) mod cap)
            (if ov then oc + 1 else oc) (tf + frames) st rdy).
  split.
  { destruct ov;
      unfold set_overflow_count;
      cbn [overflow_count sample_rate channels
             buffer_duration publish_interval analysis_window buffer_size
             audio_buffer write_index total_frames stream_start_time
             ready_to_publish];
      rewrite Hmono';
      unfold bind, get, lift, modify, store;
      cbn [overflow_count sample_rate channels
             buffer_duration publish_interval analysis_window buffer_size
             audio_buffer write_index total_frames stream_start_time
             ready_to_publish].
    all: rewrite pymod_ok by lia.
    all: revert Hbuf'; destruct (w + frames <=? cap); intros Hbuf'.
    all: cbn [audio_buffer].
    all: try (rewrite Hbuf'; reflexivity).
    all: destruct (assign_slice_from buf w (slice_to m (cap - w)));
      [| discriminate Hbuf'].
    all: cbn [set_audio_buffer audio_buffer]; rewrite Hbuf'; reflexivity. }
  unfold well_formed, same_config, ring_view.
  cbn [overflow_count sample_rate channels
         buffer_duration publish_interval analysis_window buffer_size
         audio_buffer write_index total_frames stream_start_time
         ready_to_publish].
  repeat split; try assumption; try lia; try exact Hview.
  destruct ov; lia.
Qed.

Lemma audio_callback_overrun indata frames ov s m :
  well_formed s ->
  mono_data s indata = Ok m ->
  frames = len m ->
  2 * buffer_size s < write_index s + frames ->
  exists s',
    audio_callback indata frames ov s = (s', Raise ValueError)
    /\ well_formed s'
    /\ same_config s s'
    /\ write_index s' = write_index s
    /\ total_frames s' = total_frames s
    /\ audio_buffer s'
       = firstn (Z.to_nat (write_index s)) (audio_buffer s)
           ++ firstn (Z.to_nat (buffer_size s - write_index s)) m.
Proof.
  intros (Hcap & Hlen & Hw) Hmono Hfr Hroom.
  destruct s as [sr ch bd pi aw cap buf w oc tf st rdy].
  cbn [buffer_size audio_buffer write_index total_frames overflow_count] in *.
  assert (Hmono' : forall oc',
             mono_data (mkMonitor sr ch bd pi aw cap buf w oc' tf st rdy) indata
             = Ok m) by (intros; exact Hmono).
  unfold len in Hlen, Hfr.
  set (b1 := firstn (Z.to_nat w) buf ++ firstn (Z.to_nat (cap - w)) m).
  assert (Hb1 : length b1 = length buf).
  { unfold b1. rewrite length_app, !length_firstn. lia. }
  assert (H1 : assign_slice_from buf w (slice_to m (cap - w)) = Ok b1).
  { rewrite slice_to_inside by (unfold len; lia).
    unfold assign_slice_from.
    rewrite norm_index_inside by (unfold len; lia).
    rewrite assign_range_fits.
    - unfold b1. rewrite skipn_all2 by (unfold len; lia).
      now rewrite app_nil_r.
    - unfold len; lia.
    - unfold len. rewrite length_firstn. lia. }
  assert (H2 : assign_slice_to b1 (w + frames - cap) (slice_from m (cap - w))
               = Raise ValueError).
  { unfold assign_slice_to.
    rewrite norm_index_beyond by (unfold len; lia).
    apply assign_range_mismatch.
    - apply len_nonneg.
    - rewrite len_slice_from by (unfold len; lia). unfold len. lia.
    - rewrite len_slice_from by (unfold len; lia). unfold len. lia. }
  exists (mkMonitor sr ch bd pi aw cap b1 w (if ov then oc + 1 else oc)
            tf st rdy).
  split.
  { unfold audio_callback, bind, get, lift, modify, ret, store.
    destruct ov;
      unfold set_overflow_count;
      cbn [overflow_count sample_rate channels
             buffer_duration publish_interval analysis_window buffer_size
             audio_buffer write_index total_frames stream_start_time
             ready_to_publish];
      rewrite Hmono';
      unfold bind, get, lift, modify, store;
      cbn [overflow_count sample_rate channels
             buffer_duration publish_interval analysis_window buffer_size
             audio_buffer write_index total_frames stream_start_time
             ready_to_publish].
    all: destruct (Z.leb_spec (w + frames) cap); [lia |].
    all: cbn [audio_buffer]; rewrite H1.
    all: cbn [set_audio_buffer audio_buffer]; rewrite H2; reflexivity. }
  unfold well_formed, same_config.
  cbn [overflow_count sample_rate channels
         buffer_duration publish_interval analysis_window buffer_size
         audio_buffer write_index total_frames stream_start_time
         ready_to_publish].
  unfold len. repeat split; try assumption; try lia.
Qed.

(** ** Sequences of callbacks *)

Lemma carries_same_config s s' b m :
  same_config s s' -> carries s b m -> carries s' b m.
Proof.
  intros (_ & Hch & _) [H1 H2]. split; [| assumption].
  unfold mono_data in *. now rewrite Hch.
Qed.

Lemma same_config_refl s : same_config s s.
Proof. unfold same_config; tauto. Qed.

Lemma same_config_trans s1 s2 s3 :
  same_config s1 s2 -> same_config s2 s3 -> same_config s1 s3.
Proof. unfold same_config; intuition congruence. Qed.

Lemma deliver_ring blocks : forall ms s,
  well_formed s ->
  Forall2 (carries s) blocks ms ->
  Forall (fun m => len m <= buffer_size s) ms ->
  exists s',
    deliver blocks s = (s', Ok tt)
    /\ well_formed s'
    /\ same_config s s'
    /\ write_index s' = (write_index s + len (concat ms)) mod buffer_size s
    /\ ring_view s'
       = last_n (Z.to_nat (buffer_size s)) (ring_view s ++ concat ms).
Proof.
  induction blocks as [| b blocks IH]; intros ms s Hwf Hcar Hsize.
  - inversion Hcar; subst. exists s. simpl.
    split; [reflexivity |]. split; [exact Hwf |].
    split; [apply same_config_refl |]. split.
    + rewrite Z.add_0_r, Z.mod_small; [reflexivity | apply Hwf].
    + rewrite app_nil_r, last_n_all; [reflexivity |].
      destruct Hwf as (Hc & Hl & Hw). unfold ring_view, len in *.
      rewrite length_app, length_skipn, length_firstn. lia.
  - inversion Hcar as [| b' m bs ms' [Hm Hf] Hrest]; subst.
    inversion Hsize as [| m' ms'' Hle Hsize']; subst.
    destruct (audio_callback_fits (blk_indata b) (blk_frames b)
                (blk_overflow b) s m Hwf Hm Hf)
      as (s1 & Hrun & Hwf1 & Hcfg1 & Hw1 & Hv1 & _).
    { destruct Hwf as (Hc & Hl & Hw). lia. }
    assert (Hsz : buffer_size s1 = buffer_size s) by apply Hcfg1.
    destruct (IH ms' s1 Hwf1) as (s2 & Hrun2 & Hwf2 & Hcfg2 & Hw2 & Hv2).
    { eapply Forall2_impl; [| exact Hrest].
      intros; eapply carries_same_config; eauto. }
    { now rewrite Hsz. }
    exists s2. simpl deliver.
    rewrite (bind_ok _ _ _ _ _ Hrun), Hrun2.
    split; [reflexivity |]. split; [exact Hwf2 |].
    split; [| split].
    + eapply same_config_trans; eauto.
    + rewrite Hw2, Hw1, Hsz. simpl concat. rewrite len_app.
      rewrite Zplus_mod_idemp_l. f_equal. lia.
    + rewrite Hv2, Hv1, Hsz. simpl concat.
      rewrite last_n_last_n. now rewrite app_assoc.
Qed.

(** ** [get_recent_audio] *)

Lemma samples_needed_bound s d : samples_needed s d <= buffer_size s.
Proof.
  unfold samples_needed.
  destruct (Z.gtb_spec (int (inject_Z (sample_rate s) * d)) (buffer_size s));
    lia.
Qed.

Lemma samples_needed_min s d :
  samples_needed s d
  = Z.min (buffer_size s) (int (inject_Z (sample_rate s) * d)).
Proof.
  unfold samples_needed.
  destruct (Z.gtb_spec (int (inject_Z (sample_rate s) * d)) (buffer_size s));
    lia.
Qed.

Lemma start_index_range s n :
  0 < buffer_size s -> 0 <= start_index s n < buffer_size s.
Proof. intros H; unfold start_index; apply Z.mod_pos_bound; assumption. Qed.

(** The two return statements, with the slices written out. *)
Lemma get_recent_audio_explicit s d :
  well_formed s ->
  get_recent_audio s d
  = Ok (let st := start_index s (samples_needed s d) in
        if st <? write_index s then
          firstn (Z.to_nat (write_index s - st))
            (skipn (Z.to_nat st) (audio_buffer s))
        else
          skipn (Z.to_nat st) (audio_buffer s)
            ++ firstn (Z.to_nat (write_index s)) (audio_buffer s)).
Proof.
  intros (Hcap & Hlen & Hw).
  pose proof (start_index_range s (samples_needed s d) Hcap) as Hst.
  unfold get_recent_audio. rewrite pymod_ok by lia.
  fold (start_index s (samples_needed s d)). cbv zeta.
  destruct (Z.ltb_spec (start_index s (samples_needed s d)) (write_index s)).
  - rewrite slice_inside by lia. reflexivity.
  - rewrite slice_from_inside, slice_to_inside by lia. reflexivity.
Qed.

Lemma mod_from_start w n cap k :
  0 < cap -> 0 < k <= cap -> (k - (w - (w - n) mod cap)) mod cap = 0 ->
  (if n mod cap =? 0 then cap else n mod cap) = k.
Proof.
  intros Hcap Hk Hmod.
  apply Z.mod_divide in Hmod; [| lia]. destruct Hmod as [c Hc].
  pose proof (Z.div_mod (w - n) cap ltac:(lia)) as Hdm.
  assert (Hn : n = k + (- c - (w - n) / cap) * cap) by lia.
  destruct (Z.eq_dec k cap) as [-> | Hne].
  - assert (E : n mod cap = 0).
    { rewrite Hn. replace (cap + (- c - (w - n) / cap) * cap)
        with (0 + (1 - c - (w - n) / cap) * cap) by lia.
      rewrite Z.mod_add by lia. reflexivity. }
    rewrite E. reflexivity.
  - assert (E : n mod cap = k).
    { rewrite Hn at 1. rewrite Z.mod_add by lia. apply Z.mod_small. lia. }
    rewrite E. destruct (Z.eqb_spec k 0); lia.
Qed.

(** The number of samples returned, for every request. *)
Lemma get_recent_audio_length s d win :
  well_formed s ->
  get_recent_audio s d = Ok win ->
  len win = (if samples_needed s d mod buffer_size s =? 0
             then buffer_size s
             else samples_needed s d mod buffer_size s).
Proof.
  intros Hwf Hget. rewrite get_recent_audio_explicit in Hget by assumption.
  injection Hget as <-. destruct Hwf as (Hcap & Hlen & Hw).
  pose proof (start_index_range s (samples_needed s d) Hcap) as Hst.
  cbv zeta. symmetry.
  apply mod_from_start with (w := write_index s); try assumption;
    fold (start_index s (samples_needed s d));
    destruct (Z.ltb_spec (start_index s (samples_needed s d)) (write_index s));
    unfold len in *;
    rewrite ?length_app, ?length_firstn, ?length_skipn.
  - lia.
  - lia.
  - replace (Z.of_nat _ - _) with 0 by lia. reflexivity.
  - replace (Z.of_nat _ - _) with (1 * buffer_size s) by lia.
    apply Z.mod_mul. lia.
Qed.

(** A request of [1 <= n <= capacity] samples gets the last [n] samples of
    the ring. *)
Lemma get_recent_audio_recent s d :
  well_formed s ->
  1 <= samples_needed s d ->
  get_recent_audio s d
  = Ok (last_n (Z.to_nat (samples_needed s d)) (ring_view s)).
Proof.
  intros Hwf Hn. rewrite get_recent_audio_explicit by assumption.
  destruct Hwf as (Hcap & Hlen & Hw).
  pose proof (samples_needed_bound s d) as Hb.
  set (n := samples_needed s d) in *.
  f_equal. cbv zeta. unfold ring_view, start_index, len in *.
  set (buf := audio_buffer s) in *. set (w := write_index s) in *.
  destruct (Z_le_gt_dec n w) as [Hle | Hgt].
  - rewrite Z.mod_small by lia.
    destruct (Z.ltb_spec (w - n) w); [| lia].
    rewrite last_n_app_l by (rewrite length_firstn; lia).
    unfold last_n. rewrite length_firstn, skipn_firstn_comm.
    replace (Nat.min (Z.to_nat w) (length buf) - Z.to_nat n)%nat
      with (Z.to_nat (w - n)) by lia.
    f_equal. lia.
  - replace ((w - n) mod buffer_size s) with (w - n + buffer_size s).
    2:{ apply Z.mod_unique_pos with (q := -1); lia. }
    destruct (Z.ltb_spec (w - n + buffer_size s) w); [lia |].
    rewrite last_n_app_r by (rewrite length_firstn; lia).
    f_equal. unfold last_n. rewrite length_firstn, length_skipn, skipn_skipn.
    f_equal. lia.
Qed.

Lemma Forall_firstn_keep {A} (P : A -> Prop) n (l : list A) :
  Forall P l -> Forall P (firstn n l).
Proof.
  intros H. rewrite <- (firstn_skipn n l) in H.
  apply Forall_app in H. tauto.
Qed.

Lemma Forall_skipn_keep {A} (P : A -> Prop) n (l : list A) :
  Forall P l -> Forall P (skipn n l).
Proof.
  intros H. rewrite <- (firstn_skipn n l) in H.
  apply Forall_app in H. tauto.
Qed.

Lemma get_recent_audio_keeps (P : R -> Prop) s d win :
  well_formed s ->
  Forall P (audio_buffer s) ->
  get_recent_audio s d = Ok win ->
  Forall P win.
Proof.
  intros Hwf HP Hget. rewrite get_recent_audio_explicit in Hget by assumption.
  injection Hget as <-. cbv zeta.
  destruct (_ <? _).
  - now apply Forall_firstn_keep, Forall_skipn_keep.
  - apply Forall_app. split.
    + now apply Forall_skipn_keep.
    + now apply Forall_firstn_keep.
Qed.

(** The object right after setup. *)
Lemma setup_audio_device_fresh chans bd pi aw rate s :
  setup_audio_device chans bd pi aw rate = Ok s ->
  len (audio_buffer s) = buffer_size s
  /\ write_index s = 0
  /\ Forall (fun x => x = 0%R) (audio_buffer s)
  /\ (0 < buffer_size s -> well_formed s).
Proof.
  unfold setup_audio_device.
  destruct (Z.ltb_spec (int (inject_Z (int rate) * bd)) 0) as [| Hpos];
    [discriminate |].
  intros [= <-]. cbn [audio_buffer buffer_size write_index].
  assert (Hl : len (repeat 0%R (Z.to_nat (int (inject_Z (int rate) * bd))))
               = int (inject_Z (int rate) * bd)).
  { unfold len. rewrite repeat_length. lia. }
  split; [exact Hl |]. split; [reflexivity |]. split.
  - apply Forall_forall. intros x Hx. now apply repeat_spec in Hx.
  - intros H. unfold well_formed. cbn [audio_buffer buffer_size write_index].
    lia.
Qed.

(** Position [j] of the ring, counted from its oldest sample. *)
Lemma ring_view_nth s (j : nat) :
  well_formed s ->
  Z.of_nat j < buffer_size s ->
  nth_error (ring_view s) j
  = nth_error (audio_buffer s)
      (Z.to_nat ((write_index s + Z.of_nat j) mod buffer_size s)).
Proof.
  intros (Hcap & Hlen & Hw) Hj. unfold ring_view, len in *.
  destruct (Z_lt_ge_dec (write_index s + Z.of_nat j) (buffer_size s)).
  - rewrite Z.mod_small by lia.
    rewrite nth_error_app1 by (rewrite length_skipn; lia).
    rewrite nth_error_skipn. f_equal. lia.
  - replace ((write_index s + Z.of_nat j) mod buffer_size s)
      with (write_index s + Z.of_nat j - buffer_size s).
    2:{ apply Z.mod_unique_pos with (q := 1); lia. }
    rewrite nth_error_app2 by (rewrite length_skipn; lia).
    rewrite length_skipn, nth_error_firstn.
    destruct (Nat.ltb_spec (j - (length (audio_buffer s)
                                  - Z.to_nat (write_index s)))
                (Z.to_nat (write_index s))); [| lia].
    f_equal. lia.
Qed.

(** Whatever a callback does, and however it ends, it leaves the
    configuration and the scheduler's fields alone. *)
Lemma keeps_config_ret {A} (a : A) : keeps_config (ret a).
Proof. intros s; apply same_config_refl. Qed.

Lemma keeps_config_get : keeps_config get.
Proof. intros s; apply same_config_refl. Qed.

Lemma keeps_config_lift {A} (r : result A) : keeps_config (lift r).
Proof. intros s; apply same_config_refl. Qed.

Lemma keeps_config_modify f :
  (forall s, same_config s (f s)) -> keeps_config (modify f).
Proof. intros H s; apply H. Qed.

Lemma keeps_config_bind {A B} (m : M A) (k : A -> M B) :
  keeps_config m -> (forall a, keeps_config (k a)) -> keeps_config (bind m k).
Proof.
  intros Hm Hk s. unfold bind. specialize (Hm s).
  destruct (m s) as [s1 [a | e]]; cbn [fst] in *.
  - eapply same_config_trans; [exact Hm | apply Hk].
  - exact Hm.
Qed.

Lemma keeps_config_store assign : keeps_config (store assign).
Proof.
  unfold store.
  apply keeps_config_bind; [apply keeps_config_get | intros s0].
  apply keeps_config_bind; [apply keeps_config_lift | intros b].
  apply keeps_config_modify. intros s. unfold same_config. cbn. tauto.
Qed.

Lemma audio_callback_same_config indata frames ov :
  keeps_config (audio_callback indata frames ov).
Proof.
  unfold audio_callback.
  repeat first
    [ apply keeps_config_bind; [| intros ?]
    | apply keeps_config_store
    | apply keeps_config_get
    | apply keeps_config_lift
    | apply keeps_config_ret
    | apply keeps_config_modify; intros ?; unfold same_config; cbn; tauto
    | match goal with |- keeps_config (if ?c then _ else _) => destruct c end ].
Qed.

Lemma deliver_same_config blocks : forall s,
  same_config s (fst (deliver blocks s)).
Proof.
  induction blocks as [| b blocks IH]; intros s.
  - apply same_config_refl.
  - simpl deliver. unfold bind.
    pose proof (audio_callback_same_config (blk_indata b) (blk_frames b)
                  (blk_overflow b) s) as H1.
    destruct (audio_callback _ _ _ s) as [s1 [[] | e]]; cbn [fst] in *.
    + eapply same_config_trans; [exact H1 | apply IH].
    + exact H1.
Qed.

(** On a well-formed object every request is answered, and never with an
    empty window. *)
Lemma get_recent_audio_total s d :
  well_formed s ->
  exists win,
    get_recent_audio s d = Ok win
    /\ 1 <= len win <= buffer_size s
    /\ len win = (if samples_needed s d mod buffer_size s =? 0
                  then buffer_size s
                  else samples_needed s d mod buffer_size s).
Proof.
  intros Hwf.
  rewrite (get_recent_audio_explicit s d Hwf).
  eexists. split; [reflexivity |].
  pose proof (get_recent_audio_length s d _ Hwf
                (get_recent_audio_explicit s d Hwf)) as Hl.
  split; [| exact Hl].
  rewrite Hl. destruct Hwf as (Hcap & _).
  pose proof (Z.mod_pos_bound (samples_needed s d) (buffer_size s) Hcap).
  destruct (Z.eqb_spec (samples_needed s d mod buffer_size s) 0); lia.
Qed.

(** ** [get_recent_audio] for a number of samples *)

Lemma get_recent_audio_reads s d :
  get_recent_audio s d = read_recent s (samples_needed s d).
Proof. reflexivity. Qed.

Lemma ring_view_full s :
  well_formed s -> length (ring_view s) = Z.to_nat (buffer_size s).
Proof.
  intros (Hc & Hl & Hw). unfold ring_view, len in *.
  rewrite length_app, length_skipn, length_firstn. lia.
Qed.

(** A request of [1 <= n <= capacity] samples gets the last [n] samples of
    the ring. *)
Lemma read_recent_last s n :
  well_formed s ->
  1 <= n <= buffer_size s ->
  read_recent s n = Ok (last_n (Z.to_nat n) (ring_view s)).
Proof.
  intros (Hcap & Hlen & Hw) Hn.
  pose proof (start_index_range s n Hcap) as Hst.
  unfold read_recent. rewrite pymod_ok by lia. fold (start_index s n).
  unfold ring_view, start_index, len in *.
  set (buf := audio_buffer s) in *. set (w := write_index s) in *.
  destruct (Z_le_gt_dec n w) as [Hle | Hgt].
  - rewrite Z.mod_small in * by lia.
    destruct (Z.ltb_spec (w - n) w); [| lia].
    rewrite slice_inside by (unfold len; lia).
    rewrite last_n_app_l by (rewrite length_firstn; lia).
    unfold last_n. rewrite length_firstn, skipn_firstn_comm.
    replace (Nat.min (Z.to_nat w) (length buf) - Z.to_nat n)%nat
      with (Z.to_nat (w - n)) by lia.
    do 2 f_equal. lia.
  - assert (E : (w - n) mod buffer_size s = w - n + buffer_size s).
    { symmetry. apply Z.mod_unique_pos with (q := -1); lia. }
    rewrite E in *.
    destruct (Z.ltb_spec (w - n + buffer_size s) w); [lia |].
    rewrite slice_from_inside, slice_to_inside by (unfold len; lia).
    rewrite last_n_app_r by (rewrite length_firstn; lia).
    do 2 f_equal. unfold last_n.
    rewrite length_firstn, length_skipn, skipn_skipn.
    f_equal. lia.
Qed.

(** Position [i] of the window of [n] samples, in the storage. *)
Lemma last_n_ring_view_nth s n i :
  well_formed s ->
  1 <= n <= buffer_size s ->
  0 <= i < n ->
  nth_error (last_n (Z.to_nat n) (ring_view s)) (Z.to_nat i)
  = nth_error (audio_buffer s)
      (Z.to_nat ((start_index s n + i) mod buffer_size s)).
Proof.
  intros Hwf Hn Hi. unfold last_n.
  rewrite nth_error_skipn, (ring_view_full s Hwf).
  rewrite ring_view_nth by (assumption || lia).
  f_equal. f_equal. unfold start_index. destruct Hwf as (Hc & _).
  rewrite Zplus_mod_idemp_l.
  replace (Z.of_nat (Z.to_nat (buffer_size s) - Z.to_nat n + Z.to_nat i))
    with (buffer_size s - n + i) by lia.
  replace (write_index s + (buffer_size s - n + i))
    with (write_index s - n + i + 1 * buffer_size s) by lia.
  now rewrite Z.mod_add by lia.
Qed.

Lemma all_zero_is_repeat (l : list R) :
  Forall (fun x => x = 0%R) l -> l = repeat 0%R (length l).
Proof.
  induction 1 as [| x l Hx _ IH]; [reflexivity |].
  simpl. now rewrite Hx, <- IH.
Qed.

(** A window cut out of a buffer of zeros. *)
Lemma read_recent_zeros s n :
  well_formed s ->
  1 <= n <= buffer_size s ->
  Forall (fun x => x = 0%R) (audio_buffer s) ->
  read_recent s n = Ok (repeat 0%R (Z.to_nat n)).
Proof.
  intros Hwf Hn Hz. rewrite read_recent_last by assumption. f_equal.
  assert (Hv : Forall (fun x => x = 0%R) (last_n (Z.to_nat n) (ring_view s))).
  { unfold last_n, ring_view. apply Forall_skipn_keep, Forall_app. split.
    - now apply Forall_skipn_keep.
    - now apply Forall_firstn_keep. }
  rewrite (all_zero_is_repeat _ Hv). f_equal.
  rewrite length_last_n, (ring_view_full s Hwf). lia.
Qed.

(** ** The step from seconds to samples in double precision *)

(** Equal rationals truncate to the same integer. *)
Lemma int_Qeq (q q' : Q) : (q == q')%Q -> int q = int q'.
Proof.
  destruct q as [a d], q' as [a' d']. unfold Qeq, int. cbn [Qnum Qden].
  intros H.
  rewrite <- (Z.quot_mul_cancel_r a (Z.pos d) (Z.pos d')) by lia.
  rewrite H.
  rewrite (Z.mul_comm (Z.pos d) (Z.pos d')).
  apply Z.quot_mul_cancel_r; lia.
Qed.

Lemma int_inject_Z z : int (inject_Z z) = z.
Proof. unfold int, inject_Z. cbn [Qnum Qden]. apply Z.quot_1_r. Qed.

Lemma int_opp (q : Q) : int (- q) = - int q.
Proof.
  destruct q as [a d]. unfold int, Qopp. cbn [Qnum Qden].
  apply Z.quot_opp_l. lia.
Qed.

(** [int(x)] of a double is the truncation toward zero of the rational
    number the double is. *)
Lemma double_int_truncates x k :
  Double.int x = Ok k -> k = int (Double.exact x).
Proof.
  unfold Double.int, Double.exact.
  destruct (FloatOps.Prim2SF x) as [sg | sg | | sg m e]; try discriminate.
  - intros [= <-]. reflexivity.
  - intros [= <-].
    rewrite (int_Qeq _ _ (Qred_correct _)).
    assert (Hmag :
              int (match e with
                   | Z.neg p => (Z.pos m # 2 ^ p)%Q
                   | _ => inject_Z (Z.shiftl (Z.pos m) e)
                   end)
              = match e with
                | Z.neg p => Z.shiftr (Z.pos m) (Z.pos p)
                | _ => Z.shiftl (Z.pos m) e
                end).
    { destruct e as [| p | p].
      - apply int_inject_Z.
      - apply int_inject_Z.
      - unfold int. cbn [Qnum Qden].
        rewrite Z.quot_div_nonneg by lia.
        rewrite Z.shiftr_div_pow2 by lia.
        now rewrite Pos2Z.inj_pow. }
    destruct sg.
    + now rewrite int_opp, Hmag.
    + now rewrite Hmag.
Qed.

Lemma double_samples_needed_min s seconds k :
  Double.int_of_product (sample_rate s) seconds = Ok k ->
  Double.samples_needed s seconds = Ok (Z.min (buffer_size s) k).
Proof.
  intros H. unfold Double.samples_needed. rewrite H. f_equal.
  destruct (Z.gtb_spec k (buffer_size s)); lia.
Qed.

Lemma double_samples_needed_bound s seconds n :
  Double.samples_needed s seconds = Ok n -> n <= buffer_size s.
Proof.
  unfold Double.samples_needed.
  destruct (Double.int_of_product (sample_rate s) seconds) as [k | e];
    [| discriminate].
  intros [= <-]. destruct (Z.gtb_spec k (buffer_size s)); lia.
Qed.

(** Where both readings ask for the same number of samples they return the
    same window, and it is the end of the ring. *)
Lemma double_get_recent_audio_agrees s seconds d :
  Double.samples_needed s seconds = Ok (samples_needed s d) ->
  Double.get_recent_audio s seconds = get_recent_audio s d.
Proof.
  intros H. unfold Double.get_recent_audio. now rewrite H.
Qed.

Lemma double_get_recent_audio_last s seconds n :
  well_formed s ->
  Double.samples_needed s seconds = Ok n ->
  1 <= n ->
  Double.get_recent_audio s seconds
  = Ok (last_n (Z.to_nat n) (ring_view s)).
Proof.
  intros Hwf Hn Hpos.
  pose proof (double_samples_needed_bound s seconds n Hn).
  unfold Double.get_recent_audio. rewrite Hn.
  apply read_recent_last; [assumption | lia].
Qed.

(** The object right after setup, the durations being doubles. *)
Lemma double_setup_fresh chans bd pi aw rate s :
  Double.setup_audio_device chans bd pi aw rate = Ok s ->
  len (audio_buffer s) = buffer_size s
  /\ write_index s = 0
  /\ Forall (fun x => x = 0%R) (audio_buffer s)
  /\ (0 < buffer_size s -> well_formed s).
Proof.
  unfold Double.setup_audio_device.
  destruct (Double.int rate) as [sr | e]; [| discriminate].
  destruct (Double.int_of_product sr bd) as [size | e]; [| discriminate].
  destruct (Z.ltb_spec size 0) as [| Hpos]; [discriminate |].
  intros [= <-]. cbn [audio_buffer buffer_size write_index].
  assert (Hl : len (repeat 0%R (Z.to_nat size)) = size).
  { unfold len. rewrite repeat_length. lia. }
  split; [exact Hl |]. split; [reflexivity |]. split.
  - apply Forall_forall. intros x Hx. now apply repeat_spec in Hx.
  - intros H. unfold well_formed. cbn [audio_buffer buffer_size write_index].
    lia.
Qed.

(** Closed facts about concrete objects, by evaluation. *)
Ltac by_evaluation :=
  repeat split; vm_compute;
  first [ reflexivity | discriminate | intro; discriminate ].

(** * The claims *)

(** C1. For every sequence of callbacks that starts on a well-formed object,
    writes at most [capacity] samples per call and [capacity + k] samples in
    total with [0 <= k < capacity], every call returns normally and the ring
    afterwards holds the last [capacity] samples written, in order: that is
    what the ring contains from its oldest to its newest sample, and what
    [get_recent_audio] returns when asked for the whole buffer.  In
    particular, on a buffer of 1000 samples (100 Hz, 10 s), writing 600
    zeros and then 600 ones makes [get_recent_audio] for 1000 samples return
    400 zeros followed by 600 ones. *)
Theorem wraparound_keeps_last_capacity :
  (forall s blocks ms k d,
      well_formed s ->
      Forall2 (carries s) blocks ms ->
      Forall (fun m => len m <= buffer_size s) ms ->
      len (concat ms) = buffer_size s + k ->
      0 <= k < buffer_size s ->
      buffer_size s <= int (inject_Z (sample_rate s) * d) ->
      exists s',
        deliver blocks s = (s', Ok tt)
        /\ ring_view s' = last_n (Z.to_nat (buffer_size s)) (concat ms)
        /\ get_recent_audio s' d
           = Ok (last_n (Z.to_nat (buffer_size s)) (concat ms)))
  /\ (exists s0 s',
        setup_audio_device 1 10 5 10 100 = Ok s0
        /\ buffer_size s0 = 1000
        /\ deliver [mono_block (repeat 0%R 600); mono_block (repeat 1%R 600)] s0
           = (s', Ok tt)
        /\ get_recent_audio s' 10 = Ok (repeat 0%R 400 ++ repeat 1%R 600)).
Proof.
  split.
  - intros s blocks ms k d Hwf Hcar Hsz Htot Hk Hd.
    destruct (deliver_ring blocks ms s Hwf Hcar Hsz)
      as (s' & Hrun & Hwf' & Hcfg & Hw' & Hview).
    assert (Hview' : ring_view s'
                     = last_n (Z.to_nat (buffer_size s)) (concat ms)).
    { rewrite Hview. apply last_n_app_l. unfold len in Htot. lia. }
    exists s'. split; [exact Hrun |]. split; [exact Hview' |].
    destruct Hcfg as (Hsr & _ & _ & _ & _ & Hbs & _).
    assert (Hn : samples_needed s' d = buffer_size s).
    { rewrite samples_needed_min, Hsr, Hbs. lia. }
    rewrite get_recent_audio_recent; try assumption.
    + rewrite Hn, Hview'. f_equal. apply last_n_all.
      rewrite length_last_n. lia.
    + rewrite Hn. destruct Hwf; lia.
  - eexists. eexists. split; [reflexivity |].
    split; [reflexivity |].
    split; vm_compute; reflexivity.
Qed.

(** Witness of C1: the fresh four-sample buffer, written with two blocks of
    three samples. *)
Lemma wraparound_keeps_last_capacity_witness :
  exists s',
    deliver [mono_block [1; 2; 3]%R; mono_block [4; 5; 6]%R] fresh4
    = (s', Ok tt)
    /\ ring_view s'
       = last_n (Z.to_nat (buffer_size fresh4))
           (concat [[1; 2; 3]; [4; 5; 6]]%R)
    /\ get_recent_audio s' 1
       = Ok (last_n (Z.to_nat (buffer_size fresh4))
               (concat [[1; 2; 3]; [4; 5; 6]]%R)).
Proof.
  apply (proj1 wraparound_keeps_last_capacity fresh4
           [mono_block [1; 2; 3]%R; mono_block [4; 5; 6]%R]
           [[1; 2; 3]; [4; 5; 6]]%R 2 1%Q).
  - by_evaluation.
  - repeat constructor.
  - repeat constructor; by_evaluation.
  - reflexivity.
  - by_evaluation.
  - by_evaluation.
Defined.

(** C2 (as amended). Before any data has been written (the object as
    [setup_audio_device] leaves it) [get_recent_audio] does not return an
    empty window: a request that needs [n >= 1] samples, with
    [n = min(capacity, int(sample_rate * seconds))] computed in double
    precision, returns exactly [n] samples, each the zero of the initial
    fill. *)
Theorem read_before_any_write_returns_zeros :
  forall chans buf_dur pub_int win_len default_samplerate s seconds n,
    Double.setup_audio_device chans buf_dur pub_int win_len default_samplerate
    = Ok s ->
    Double.samples_needed s seconds = Ok n ->
    1 <= n ->
    Double.get_recent_audio s seconds = Ok (repeat 0%R (Z.to_nat n))
    /\ len (repeat 0%R (Z.to_nat n)) = n
    /\ repeat 0%R (Z.to_nat n) <> [].
Proof.
  intros chans buf_dur pub_int win_len rate s seconds n Hsetup Hn Hpos.
  destruct (double_setup_fresh _ _ _ _ _ _ Hsetup) as (_ & _ & Hzero & Hwf).
  pose proof (double_samples_needed_bound s seconds n Hn) as Hb.
  assert (Hcap : 0 < buffer_size s) by lia.
  unfold Double.get_recent_audio. rewrite Hn.
  rewrite (read_recent_zeros s n (Hwf Hcap)) by (assumption || lia).
  split; [reflexivity |]. split.
  - unfold len. rewrite repeat_length. lia.
  - destruct (Z.to_nat n) eqn:E; [lia | discriminate].
Qed.

(** C2, the claim as stated, fails: on a fresh buffer of four samples (4 Hz,
    1 s) a request for half a second returns two samples, a request for zero
    seconds returns the whole buffer and a request for minus half a second
    returns two samples; none of these windows is empty. *)
Lemma read_recent_empty_window_counterexample :
  Double.setup_audio_device 1 Seconds.d1 Seconds.d5 Seconds.d1 Seconds.d4
  = Ok fresh4
  /\ Double.get_recent_audio fresh4 Seconds.d0_5 = Ok [0; 0]%R
  /\ Double.get_recent_audio fresh4 Seconds.d0 = Ok [0; 0; 0; 0]%R
  /\ Double.get_recent_audio fresh4 Seconds.minus_d0_5 = Ok [0; 0]%R
  /\ Double.get_recent_audio fresh4 Seconds.d0_5 <> Ok []
  /\ Double.get_recent_audio fresh4 Seconds.d0 <> Ok []
  /\ Double.get_recent_audio fresh4 Seconds.minus_d0_5 <> Ok [].
Proof.
  repeat split; try (vm_compute; reflexivity);
    vm_compute; discriminate.
Qed.

(** Witness of C2: the fresh four-sample buffer asked for half a second. *)
Lemma read_before_any_write_returns_zeros_witness :
  Double.get_recent_audio fresh4 Seconds.d0_5 = Ok (repeat 0%R (Z.to_nat 2))
  /\ len (repeat 0%R (Z.to_nat 2)) = 2
  /\ repeat 0%R (Z.to_nat 2) <> [].
Proof.
  apply (read_before_any_write_returns_zeros
           1 Seconds.d1 Seconds.d5 Seconds.d1 Seconds.d4 fresh4
           Seconds.d0_5 2).
  - vm_compute; reflexivity.
  - vm_compute; reflexivity.
  - lia.
Defined.

(** C6 (as amended). The number of samples asked for is
    [min(capacity, int(sample_rate * seconds))]: the sample rate converted
    to a double, the product rounded once to a double, and that double
    truncated toward zero, not rounded.  Whenever the truncated product [k]
    is at least 1, [get_recent_audio] returns exactly [min(capacity, k)]
    samples, and they are the buffer's samples from index
    [(write_index - min(capacity, k)) mod capacity] on, wrapping at the end
    of the storage. *)
Theorem read_recent_returns_truncated_count :
  forall s seconds rate k,
    well_formed s ->
    Double.float_of_int (sample_rate s) = Ok rate ->
    Double.int (PrimFloat.mul rate seconds) = Ok k ->
    1 <= k ->
    k = int (Double.exact (PrimFloat.mul rate seconds))
    /\ Double.samples_needed s seconds = Ok (Z.min (buffer_size s) k)
    /\ exists win,
         Double.get_recent_audio s seconds = Ok win
         /\ len win = Z.min (buffer_size s) k
         /\ forall i,
              0 <= i < Z.min (buffer_size s) k ->
              nth_error win (Z.to_nat i)
              = nth_error (audio_buffer s)
                  (Z.to_nat ((start_index s (Z.min (buffer_size s) k) + i)
                               mod buffer_size s)).
Proof.
  intros s seconds rate k Hwf Hrate Hk Hpos.
  assert (Hprod : Double.int_of_product (sample_rate s) seconds = Ok k).
  { unfold Double.int_of_product. now rewrite Hrate. }
  pose proof (double_samples_needed_min s seconds k Hprod) as Hn.
  split; [now apply double_int_truncates |]. split; [exact Hn |].
  set (n := Z.min (buffer_size s) k) in *.
  assert (Hrange : 1 <= n <= buffer_size s).
  { destruct Hwf. subst n. lia. }
  unfold Double.get_recent_audio. rewrite Hn.
  rewrite (read_recent_last s n Hwf Hrange).
  eexists. split; [reflexivity |]. split.
  - unfold len. rewrite length_last_n, (ring_view_full s Hwf). lia.
  - intros i Hi. now apply last_n_ring_view_nth.
Qed.

(** Witness of C6: three samples (0.3 s at 10 Hz) out of the full
    ten-sample buffer. *)
Lemma read_recent_returns_truncated_count_witness :
  3 = int (Double.exact (PrimFloat.mul Seconds.hz10 Seconds.d0_3))
  /\ Double.samples_needed full10 Seconds.d0_3
     = Ok (Z.min (buffer_size full10) 3)
  /\ exists win,
       Double.get_recent_audio full10 Seconds.d0_3 = Ok win
       /\ len win = Z.min (buffer_size full10) 3
       /\ forall i,
            0 <= i < Z.min (buffer_size full10) 3 ->
            nth_error win (Z.to_nat i)
            = nth_error (audio_buffer full10)
                (Z.to_nat ((start_index full10 (Z.min (buffer_size full10) 3)
                            + i) mod buffer_size full10)).
Proof.
  apply (read_recent_returns_truncated_count full10 Seconds.d0_3
           Seconds.hz10 3).
  - by_evaluation.
  - vm_compute; reflexivity.
  - vm_compute; reflexivity.
  - lia.
Defined.

(** C6, the claim as stated, fails.  At 100 Hz a request for 0.29 s needs
    28 samples, the double product being just under 29, where the rounded
    product gives 29, and 28 samples are returned.  At 10 Hz a request for
    0.16 s needs [int(1.6) = 1] sample where the rounded product gives 2,
    and one sample is returned; a request for 0.01 s (a positive duration)
    needs 0 samples, and the whole buffer of 10 samples is returned. *)
Lemma read_recent_rounding_counterexample :
  Double.samples_needed rate100 Seconds.d0_29 = Ok 28
  /\ spec_samples_needed rate100 (Double.exact Seconds.d0_29) = 29
  /\ spec_samples_needed rate100 (29 # 100) = 29
  /\ Double.get_recent_audio rate100 Seconds.d0_29 = Ok (repeat 0%R 28)
  /\ Double.samples_needed full10 Seconds.d0_16 = Ok 1
  /\ spec_samples_needed full10 (Double.exact Seconds.d0_16) = 2
  /\ Double.get_recent_audio full10 Seconds.d0_16 = Ok [10]%R
  /\ Double.samples_needed full10 Seconds.d0_01 = Ok 0
  /\ spec_samples_needed full10 (Double.exact Seconds.d0_01) = 0
  /\ Double.get_recent_audio full10 Seconds.d0_01
     = Ok [1; 2; 3; 4; 5; 6; 7; 8; 9; 10]%R
  /\ len [1; 2; 3; 4; 5; 6; 7; 8; 9; 10]%R
     <> spec_samples_needed full10 (Double.exact Seconds.d0_01).
Proof. by_evaluation. Qed.

(** C7 (as amended). A call of [audio_callback] with more frames than the
    buffer holds is neither clamped nor truncated.  If
    [write_index + frames <= 2 * capacity] the call returns normally, the
    write index becomes [(write_index + frames) mod capacity] and the ring
    then holds the last [capacity] samples of the block.  If
    [write_index + frames > 2 * capacity] the assignment of the tail raises
    [ValueError] after the head has overwritten the storage from the write
    index to its end; the write index and the frame total keep their old
    values.  In both cases the buffer still has exactly [capacity] samples
    and the write index is in [0, capacity). *)
Theorem oversized_write_is_unguarded :
  forall s indata frames ov m,
    well_formed s ->
    mono_data s indata = Ok m ->
    frames = len m ->
    buffer_size s < frames ->
    (write_index s + frames <= 2 * buffer_size s ->
     exists s',
       audio_callback indata frames ov s = (s', Ok tt)
       /\ well_formed s'
       /\ buffer_size s' = buffer_size s
       /\ write_index s' = (write_index s + frames) mod buffer_size s
       /\ ring_view s' = last_n (Z.to_nat (buffer_size s)) m)
    /\ (2 * buffer_size s < write_index s + frames ->
        exists s',
          audio_callback indata frames ov s = (s', Raise ValueError)
          /\ well_formed s'
          /\ buffer_size s' = buffer_size s
          /\ write_index s' = write_index s
          /\ total_frames s' = total_frames s
          /\ audio_buffer s'
             = firstn (Z.to_nat (write_index s)) (audio_buffer s)
                 ++ firstn (Z.to_nat (buffer_size s - write_index s)) m).
Proof.
  intros s indata frames ov m Hwf Hmono Hfr Hbig. split; intros Hroom.
  - destruct (audio_callback_fits indata frames ov s m Hwf Hmono Hfr Hroom)
      as (s' & Hrun & Hwf' & Hcfg & Hw' & Hview & _).
    exists s'. split; [exact Hrun |]. split; [exact Hwf' |].
    split; [apply Hcfg |]. split; [exact Hw' |].
    rewrite Hview. apply last_n_app_l. unfold len in Hfr. lia.
  - destruct (audio_callback_overrun indata frames ov s m Hwf Hmono Hfr Hroom)
      as (s' & Hrun & Hwf' & Hcfg & Hw' & Htf & Hbuf).
    exists s'. split; [exact Hrun |]. split; [exact Hwf' |].
    split; [apply Hcfg |]. tauto.
Qed.

(** Witness of C7: six samples written into the fresh four-sample buffer. *)
Lemma oversized_write_is_unguarded_witness :
  (write_index fresh4 + 6 <= 2 * buffer_size fresh4 ->
   exists s',
     audio_callback (blk_indata (mono_block [1; 2; 3; 4; 5; 6]%R)) 6 false
       fresh4 = (s', Ok tt)
     /\ well_formed s'
     /\ buffer_size s' = buffer_size fresh4
     /\ write_index s' = (write_index fresh4 + 6) mod buffer_size fresh4
     /\ ring_view s'
        = last_n (Z.to_nat (buffer_size fresh4)) [1; 2; 3; 4; 5; 6]%R)
  /\ (2 * buffer_size fresh4 < write_index fresh4 + 6 ->
      exists s',
        audio_callback (blk_indata (mono_block [1; 2; 3; 4; 5; 6]%R)) 6 false
          fresh4 = (s', Raise ValueError)
        /\ well_formed s'
        /\ buffer_size s' = buffer_size fresh4
        /\ write_index s' = write_index fresh4
        /\ total_frames s' = total_frames fresh4
        /\ audio_buffer s'
           = firstn (Z.to_nat (write_index fresh4)) (audio_buffer fresh4)
               ++ firstn (Z.to_nat (buffer_size fresh4 - write_index fresh4))
                    [1; 2; 3; 4; 5; 6]%R).
Proof.
  apply (oversized_write_is_unguarded fresh4
           (blk_indata (mono_block [1; 2; 3; 4; 5; 6]%R)) 6 false
           [1; 2; 3; 4; 5; 6]%R).
  - by_evaluation.
  - reflexivity.
  - reflexivity.
  - by_evaluation.
Defined.

(** C7, the claim as stated, fails: nine samples written into the fresh
    four-sample buffer are not clamped or truncated.  The call raises
    [ValueError]; the buffer then holds the first four samples of the block
    and not its last four, and the write index and the frame total have not
    moved. *)
Lemma oversized_write_counterexample :
  len [1; 2; 3; 4; 5; 6; 7; 8; 9]%R > buffer_size fresh4
  /\ audio_callback
       (blk_indata (mono_block [1; 2; 3; 4; 5; 6; 7; 8; 9]%R)) 9 false fresh4
     = (mkMonitor 4 1 1 5 1 4 [1; 2; 3; 4]%R 0 0 0 None false,
        Raise ValueError)
  /\ snd (audio_callback
            (blk_indata (mono_block [1; 2; 3; 4; 5; 6; 7; 8; 9]%R)) 9 false
            fresh4) <> Ok tt.
Proof. by_evaluation. Qed.

(** C10. At every sample rate strictly below 10 (sample rates are positive)
    the chunk size [int(sample_rate * 0.1)] is zero; on a non-empty window
    the loop's [range] then raises [ValueError] inside the [try] block, and
    [analyze_audio] catches it and returns [None]: no statistics come out. *)
Theorem low_sample_rate_yields_no_statistics :
  forall s,
    0 < sample_rate s < 10 ->
    chunk_size s = 0
    /\ (forall samples,
          samples <> [] -> analyze_window s samples = Raise ValueError)
    /\ (well_formed s -> analyze_audio_try s = Raise ValueError)
    /\ analyze_audio s = None.
Proof.
  intros s Hsr.
  assert (Hcs : chunk_size s = 0).
  { unfold chunk_size, int. cbn [Qnum Qden Qmult inject_Z].
    apply Z.quot_small. lia. }
  assert (Hwin : forall samples,
             samples <> [] -> analyze_window s samples = Raise ValueError).
  { intros samples Hne. unfold analyze_window.
    destruct (Z.eqb_spec (len samples) 0) as [H0 | _].
    - destruct samples; [contradiction | discriminate H0].
    - rewrite Hcs. reflexivity. }
  split; [exact Hcs |]. split; [exact Hwin |]. split.
  - intros Hwf. unfold analyze_audio_try.
    destruct (get_recent_audio_total s (analysis_window s) Hwf)
      as (win & Hget & Hlen & _).
    rewrite Hget. apply Hwin. intros ->. unfold len in Hlen. simpl in Hlen. lia.
  - unfold analyze_audio, analyze_audio_try.
    destruct (get_recent_audio s (analysis_window s)) as [samples | e];
      [| reflexivity].
    destruct samples as [| x samples]; [reflexivity |].
    rewrite Hwin by discriminate. reflexivity.
Qed.

(** Witness of C10: a monitor at 5 Hz. *)
Lemma low_sample_rate_yields_no_statistics_witness :
  chunk_size slow5 = 0
  /\ (forall samples,
        samples <> [] -> analyze_window slow5 samples = Raise ValueError)
  /\ (well_formed slow5 -> analyze_audio_try slow5 = Raise ValueError)
  /\ analyze_audio slow5 = None.
Proof.
  apply (low_sample_rate_yields_no_statistics slow5).
  by_evaluation.
Defined.

(** ** The scheduler *)

Lemma tick_fields t s :
  ready_to_publish (fst (deliver (tick_blocks t) s)) = ready_to_publish s
  /\ stream_start_time (fst (deliver (tick_blocks t) s)) = stream_start_time s
  /\ analysis_window (fst (deliver (tick_blocks t) s)) = analysis_window s.
Proof.
  pose proof (deliver_same_config (tick_blocks t) s) as H.
  unfold same_config in H. tauto.
Qed.











(** ** The level analyser *)

Local Open Scope R_scope.

Lemma np_sum_zeros samples :
  Forall (fun x => x = 0) samples -> np_sum samples = 0.
Proof.
  induction 1 as [| x l Hx _ IH]; simpl; [reflexivity |].
  rewrite Hx, IH. lra.
Qed.

Lemma remove_dc_zeros samples :
  Forall (fun x => x = 0) samples ->
  Forall (fun x => x = 0) (remove_dc samples).
Proof.
  intros H. unfold remove_dc, np_mean. rewrite (np_sum_zeros _ H).
  apply Forall_forall. intros y Hy. apply in_map_iff in Hy.
  destruct Hy as (x & <- & Hx).
  rewrite Forall_forall in H. rewrite (H x Hx).
  unfold Rdiv. lra.
Qed.

Lemma rms_of_zeros samples :
  Forall (fun x => x = 0) samples -> rms_of samples = 0.
Proof.
  intros H. unfold rms_of, np_mean.
  rewrite np_sum_zeros.
  - unfold Rdiv. rewrite Rmult_0_l. apply sqrt_0.
  - apply Forall_forall. intros y Hy. apply in_map_iff in Hy.
    destruct Hy as (x & <- & Hx).
    rewrite Forall_forall in H. rewrite (H x Hx). lra.
Qed.

Lemma silence_rms_pos : 0 < silence_rms.
Proof. unfold silence_rms. lra. Qed.

Lemma calculate_db_nonempty samples :
  samples <> [] ->
  calculate_db_from_samples samples
  = if Rgt_dec (rms_of (remove_dc samples)) silence_rms
    then 20 * log10 (rms_of (remove_dc samples))
    else floor_db.
Proof.
  intros Hne. unfold calculate_db_from_samples.
  destruct (Z.eqb_spec (len samples) 0) as [H0 | _]; [| reflexivity].
  destruct samples; [contradiction | discriminate H0].
Qed.

Lemma calculate_db_zeros samples :
  Forall (fun x => x = 0) samples ->
  calculate_db_from_samples samples = floor_db.
Proof.
  intros Hz.
  destruct samples as [| x l] eqn:E; [reflexivity |].
  rewrite calculate_db_nonempty by discriminate.
  rewrite (rms_of_zeros _ (remove_dc_zeros _ Hz)).
  pose proof silence_rms_pos.
  destruct (Rgt_dec 0 silence_rms); [lra | reflexivity].
Qed.

Lemma calculate_db_loud samples r :
  samples <> [] ->
  rms_of (remove_dc samples) = r ->
  silence_rms < r ->
  calculate_db_from_samples samples = 20 * log10 r.
Proof.
  intros Hne Hr Hgt. rewrite calculate_db_nonempty by assumption.
  rewrite Hr. destruct (Rgt_dec r silence_rms); [reflexivity | lra].
Qed.

(** The exact reading is the model as computed, on real numbers. *)
Lemma calculate_db_exact (samples : list R) :
  AsComputed.calculate_db_from_samples exact_numpy samples
  = calculate_db_from_samples samples.
Proof.
  destruct samples as [| x l]; [reflexivity |].
  rewrite calculate_db_nonempty by discriminate.
  unfold AsComputed.calculate_db_from_samples.
  change (len (x :: l) =? 0)%Z with false. cbv zeta iota.
  set (samples := x :: l).
  change (AsComputed.rms exact_numpy (AsComputed.centred exact_numpy samples))
    with (rms_of (remove_dc samples)).
  cbn [AsComputed.above_1e_10 AsComputed.times_20 AsComputed.log10
       AsComputed.minus_80 exact_numpy].
  destruct (Rgt_dec (rms_of (remove_dc samples)) silence_rms); reflexivity.
Qed.



Lemma rms_of_pair : rms_of (remove_dc [1; -1]) = 1.
Proof.
  unfold rms_of, remove_dc, np_mean, np_sum, len. simpl.
  apply sqrt_lem_1; lra.
Qed.

Lemma rms_of_quad : rms_of (remove_dc [1; -1; 0; 0]) = sqrt (1 / 2).
Proof.
  unfold rms_of, remove_dc, np_mean, np_sum, len. simpl.
  f_equal. field.
Qed.

Lemma sqrt_half_bounds : 1e-10 < sqrt (1 / 2) /\ / 100 < sqrt (1 / 2).
Proof.
  assert (H : / 100 < sqrt (1 / 2)).
  { rewrite <- (sqrt_pow2 (/ 100)) by lra.
    apply sqrt_lt_1; lra. }
  split; lra.
Qed.


(** ** [analyze_audio] *)

(** What a returned dictionary is made of. *)
Lemma analyze_window_some s samples stats :
  analyze_window s samples = Ok (Some stats) ->
  exists starts d ds,
    samples <> []
    /\ range0 (len samples) (chunk_size s) = Ok starts
    /\ db_values_of (chunk_size s) samples starts = d :: ds
    /\ stats = mkStats (np_min d ds) (np_max d ds)
                 (calculate_db_from_samples samples)
                 (IZR (len samples) / IZR (sample_rate s))
                 (overflow_count s).
Proof.
  unfold analyze_window.
  destruct (Z.eqb_spec (len samples) 0) as [| Hne]; [discriminate |].
  destruct (range0 (len samples) (chunk_size s)) as [starts | e];
    [| discriminate].
  destruct (db_values_of (chunk_size s) samples starts) as [| d ds] eqn:Edb;
    [discriminate |].
  destruct (Z.eqb_spec (sample_rate s) 0); [discriminate |].
  intros [= <-]. exists starts, d, ds.
  split; [intros ->; apply Hne; reflexivity |].
  repeat split; assumption.
Qed.

Lemma log10_1 : log10 1 = 0.
Proof. unfold log10. rewrite ln_1. unfold Rdiv. apply Rmult_0_l. Qed.

Lemma analyze_audio_half_loud :
  analyze_audio half_loud
  = Some (mkStats (np_min (20 * log10 1) [floor_db])
            (np_max (20 * log10 1) [floor_db])
            (20 * log10 (sqrt (1 / 2)))
            (IZR 4 / IZR 20) 0).
Proof.
  unfold analyze_audio, analyze_audio_try.
  replace (get_recent_audio half_loud (analysis_window half_loud))
    with (Ok [1; -1; 0; 0]) by (vm_compute; reflexivity).
  unfold analyze_window.
  replace (chunk_size half_loud) with 2%Z by reflexivity.
  replace (len [1; -1; 0; 0]) with 4%Z by reflexivity.
  replace (range0 4 2) with (Ok [0; 2]%Z) by reflexivity.
  replace (db_values_of 2 [1; -1; 0; 0] [0; 2]%Z)
    with [calculate_db_from_samples [1; -1];
          calculate_db_from_samples [0; 0]] by reflexivity.
  cbn [Z.eqb sample_rate half_loud overflow_count].
  rewrite (calculate_db_loud [1; -1] 1);
    [| discriminate | apply rms_of_pair | unfold silence_rms; lra].
  rewrite (calculate_db_zeros [0; 0]) by (repeat constructor).
  rewrite (calculate_db_loud [1; -1; 0; 0] (sqrt (1 / 2)));
    [| discriminate | apply rms_of_quad
     | unfold silence_rms; apply sqrt_half_bounds].
  reflexivity.
Qed.

Lemma log10_sqrt_half_above : -2 < log10 (sqrt (1 / 2)).
Proof.
  destruct sqrt_half_bounds as [_ H].
  assert (Hln10 : 0 < ln 10).
  { rewrite <- ln_1. apply ln_increasing; lra. }
  assert (Hln : ln (/ 100) < ln (sqrt (1 / 2))).
  { apply ln_increasing; lra. }
  assert (E : ln (/ 100) = - 2 * ln 10).
  { rewrite ln_Rinv by lra.
    replace 100 with (10 * 10) by lra.
    rewrite ln_mult by lra. lra. }
  unfold log10.
  apply Rmult_lt_reg_r with (ln 10); [assumption |].
  unfold Rdiv. rewrite Rmult_assoc, Rinv_l by lra. lra.
Qed.

(** C4. Whenever [analyze_audio] returns statistics, the window was not
    empty, at least one chunk was valid, and [avg_db] is
    [calculate_db_from_samples] of the entire window ([min_db] and [max_db]
    being the extremes of the per-chunk values).  It is not the arithmetic
    mean of the per-chunk values: on the window [1, -1, 0, 0] at 20 Hz the
    two chunks measure 0 dB and -80 dB, of mean -40 dB, and [avg_db] is
    [20 * log10 (sqrt (1/2))], about -3 dB. *)
Theorem avg_db_is_over_the_whole_window :
  (forall s stats,
      analyze_audio s = Some stats ->
      exists samples starts d ds,
        get_recent_audio s (analysis_window s) = Ok samples
        /\ samples <> []
        /\ range0 (len samples) (chunk_size s) = Ok starts
        /\ db_values_of (chunk_size s) samples starts = d :: ds
        /\ avg_db stats = calculate_db_from_samples samples
        /\ min_db stats = np_min d ds
        /\ max_db stats = np_max d ds)
  /\ (exists stats,
        analyze_audio half_loud = Some stats
        /\ db_values_of (chunk_size half_loud) [1; -1; 0; 0] [0; 2]%Z
           = [0; -80]
        /\ np_mean [0; -80] = -40
        /\ avg_db stats = calculate_db_from_samples [1; -1; 0; 0]
        /\ avg_db stats <> np_mean [0; -80]).
Proof.
  split.
  - intros s stats H. unfold analyze_audio, analyze_audio_try in H.
    destruct (get_recent_audio s (analysis_window s)) as [samples | e];
      [| discriminate].
    destruct (analyze_window s samples) as [[st |] | e] eqn:Ew;
      try discriminate.
    injection H as ->.
    destruct (analyze_window_some s samples stats Ew)
      as (starts & d & ds & Hne & Hr & Hdb & ->).
    exists samples, starts, d, ds. repeat split; assumption.
  - eexists. split; [apply analyze_audio_half_loud |].
    assert (Hwhole : calculate_db_from_samples [1; -1; 0; 0]
                     = 20 * log10 (sqrt (1 / 2))).
    { apply calculate_db_loud;
        [discriminate | apply rms_of_quad
         | unfold silence_rms; apply sqrt_half_bounds]. }
    assert (Hmean : np_mean [0; -80] = -40).
    { unfold np_mean, np_sum, len. simpl. lra. }
    split; [| split; [exact Hmean | split]].
    + replace (chunk_size half_loud) with 2%Z by reflexivity.
      replace (db_values_of 2 [1; -1; 0; 0] [0; 2]%Z)
        with [calculate_db_from_samples [1; -1];
              calculate_db_from_samples [0; 0]] by reflexivity.
      rewrite (calculate_db_loud [1; -1] 1);
        [| discriminate | apply rms_of_pair | unfold silence_rms; lra].
      rewrite (calculate_db_zeros [0; 0]) by (repeat constructor).
      rewrite log10_1. unfold floor_db. f_equal. lra.
    + cbn [avg_db]. now rewrite Hwhole.
    + cbn [avg_db]. rewrite Hmean.
      pose proof log10_sqrt_half_above. lra.
Qed.

(** Witness of C4: the statistics of [half_loud]. *)
Lemma avg_db_is_over_the_whole_window_witness :
  exists samples starts d ds,
    get_recent_audio half_loud (analysis_window half_loud) = Ok samples
    /\ samples <> []
    /\ range0 (len samples) (chunk_size half_loud) = Ok starts
    /\ db_values_of (chunk_size half_loud) samples starts = d :: ds
    /\ avg_db (mkStats (np_min (20 * log10 1) [floor_db])
                 (np_max (20 * log10 1) [floor_db])
                 (20 * log10 (sqrt (1 / 2))) (IZR 4 / IZR 20) 0)
       = calculate_db_from_samples samples
    /\ min_db (mkStats (np_min (20 * log10 1) [floor_db])
                 (np_max (20 * log10 1) [floor_db])
                 (20 * log10 (sqrt (1 / 2))) (IZR 4 / IZR 20) 0)
       = np_min d ds
    /\ max_db (mkStats (np_min (20 * log10 1) [floor_db])
                 (np_max (20 * log10 1) [floor_db])
                 (20 * log10 (sqrt (1 / 2))) (IZR 4 / IZR 20) 0)
       = np_max d ds.
Proof.
  apply (proj1 avg_db_is_over_the_whole_window half_loud).
  apply analyze_audio_half_loud.
Defined.

Local Close Scope R_scope.

(** ** The chunks of a window *)

Section Chunks.
Context {A : Type}.
Implicit Types l : list A.

Lemma firstn_plus l (a b : nat) :
  firstn (a + b) l = firstn a l ++ firstn b (skipn a l).
Proof.
  rewrite firstn_skipn_comm.
  rewrite <- (firstn_skipn a (firstn (a + b) l)) at 1.
  f_equal. rewrite firstn_firstn. f_equal. lia.
Qed.

Lemma concat_consecutive_chunks l (c k : nat) :
  concat (map (fun j => firstn c (skipn (j * c) l)) (seq 0 k))
  = firstn (k * c) l.
Proof.
  induction k as [| k IH]; [reflexivity |].
  rewrite seq_S, map_app, concat_app, IH. simpl.
  rewrite app_nil_r. symmetry. rewrite Nat.add_comm. apply firstn_plus.
Qed.

(** A chunk that starts inside the window. *)
Lemma slice_chunk l (c j : nat) :
  (j * c < length l)%nat ->
  slice l (Z.of_nat j * Z.of_nat c) (Z.of_nat j * Z.of_nat c + Z.of_nat c)
  = firstn c (skipn (j * c) l).
Proof.
  intros H. unfold slice, norm_index, len.
  destruct (Z.ltb_spec (Z.of_nat j * Z.of_nat c) 0); [lia |].
  destruct (Z.ltb_spec (Z.of_nat j * Z.of_nat c + Z.of_nat c) 0); [lia |].
  replace (Z.to_nat (Z.min (Z.of_nat j * Z.of_nat c) (Z.of_nat (length l))))
    with (j * c)%nat by lia.
  match goal with
  | |- firstn ?t _ = _ =>
      replace t with (Nat.min c (length l - j * c)) by lia
  end.
  rewrite <- (firstn_all (skipn (j * c) l)) at 2.
  now rewrite length_skipn, firstn_firstn.
Qed.

End Chunks.

Lemma chunk_count_bounds n cs :
  1 <= cs -> 1 <= n ->
  let k := (n + cs - 1) / cs in
  1 <= k /\ (k - 1) * cs < n <= k * cs.
Proof.
  intros Hcs Hn k.
  pose proof (Z.mul_div_le (n + cs - 1) cs ltac:(lia)) as H1.
  pose proof (Z.mul_succ_div_gt (n + cs - 1) cs ltac:(lia)) as H2.
  fold k in H1, H2. nia.
Qed.

Lemma range0_positive n cs :
  1 <= cs -> 1 <= n ->
  range0 n cs
  = Ok (map (fun j => Z.of_nat j * cs)
          (seq 0 (Z.to_nat ((n + cs - 1) / cs)))).
Proof.
  intros Hcs Hn. unfold range0.
  destruct (Z.eqb_spec cs 0); [lia |].
  destruct (Z.ltb_spec cs 0); [lia |].
  destruct (Z.leb_spec n 0); [lia |]. reflexivity.
Qed.

(** The chunks the loop cuts, as pieces of the list. *)
Lemma chunks_as_pieces (samples : list R) cs :
  1 <= cs -> samples <> [] ->
  let k := Z.to_nat ((len samples + cs - 1) / cs) in
  let c := Z.to_nat cs in
  map (chunk_at cs samples) (map (fun j => Z.of_nat j * cs) (seq 0 k))
  = map (fun j => firstn c (skipn (j * c) samples)) (seq 0 k)
  /\ (1 <= k)%nat
  /\ ((k - 1) * c < length samples <= k * c)%nat.
Proof.
  intros Hcs Hne k c.
  assert (Hn : 1 <= len samples).
  { destruct samples; [contradiction | unfold len; simpl; lia]. }
  destruct (chunk_count_bounds (len samples) cs Hcs Hn) as (Hk & Hlo & Hhi).
  assert (Hkc : (1 <= k)%nat /\ ((k - 1) * c < length samples <= k * c)%nat).
  { unfold len in *. subst k c. split; [lia |]. nia. }
  split; [| exact Hkc].
  rewrite map_map. apply map_ext_in. intros j Hj.
  apply in_seq in Hj. unfold chunk_at.
  replace cs with (Z.of_nat c) by (subst c; lia).
  apply slice_chunk. nia.
Qed.

Lemma db_values_of_filter cs samples starts :
  db_values_of cs samples starts
  = map calculate_db_from_samples
      (filter (chunk_valid cs) (map (chunk_at cs samples) starts)).
Proof.
  unfold db_values_of.
  induction starts as [| i starts IH]; [reflexivity |].
  simpl. destruct (chunk_valid cs (chunk_at cs samples i)); simpl;
    now rewrite IH.
Qed.

Lemma chunk_size_floor s :
  0 <= sample_rate s -> chunk_size s = sample_rate s / 10.
Proof.
  intros H. unfold chunk_size, int. cbn [Qnum Qden Qmult inject_Z].
  rewrite Z.mul_1_r. apply Z.quot_div_nonneg; lia.
Qed.

Lemma chunk_size_positive s : 1 <= chunk_size s -> 10 <= sample_rate s.
Proof.
  unfold chunk_size, int. cbn [Qnum Qden Qmult inject_Z].
  rewrite Z.mul_1_r. change (Z.pos (1 * 10)) with 10. intros H.
  destruct (Z_lt_ge_dec (sample_rate s) 10) as [Hlt | Hge]; [| lia].
  destruct (Z_lt_ge_dec (sample_rate s) 0) as [Hneg | Hpos].
  - pose proof (Z.quot_opp_l (- sample_rate s) 10 ltac:(lia)) as E.
    rewrite Z.opp_involutive in E.
    pose proof (Z.quot_pos (- sample_rate s) 10 ltac:(lia) ltac:(lia)).
    lia.
  - rewrite Z.quot_small in H by lia. lia.
Qed.

(** The chunk length in double precision: [0.1] is not a double, and the
    product is rounded before it is truncated; up to 200 kHz the result is
    the exact one all the same. *)
Lemma chunk_sizes_agree_spec n : forall rate,
  chunk_sizes_agree rate n = true ->
  forall r,
    rate <= r < rate + Z.of_nat n ->
    Double.int_of_product r Double.tenth = Ok (r / 10).
Proof.
  induction n as [| n IH]; intros rate H r Hr; [lia |].
  simpl in H.
  destruct (Double.int_of_product rate Double.tenth)
    as [c | e] eqn:E; [| discriminate].
  destruct (Z.eqb_spec c (rate / 10)) as [-> | _]; [| discriminate].
  destruct (Z.eq_dec r rate) as [-> | Hne]; [exact E |].
  apply (IH (rate + 1) H). lia.
Qed.

Lemma double_chunk_size_agrees s :
  0 <= sample_rate s <= 200000 ->
  Double.chunk_size s = Ok (chunk_size s).
Proof.
  intros H. rewrite chunk_size_floor by lia. unfold Double.chunk_size.
  apply (chunk_sizes_agree_spec (Z.to_nat 200001) 0); [| lia].
  vm_compute. reflexivity.
Qed.

Local Open Scope R_scope.

Lemma np_min_spec ds : forall d,
  np_min d ds <= d
  /\ Forall (fun x => np_min d ds <= x) ds
  /\ In (np_min d ds) (d :: ds).
Proof.
  unfold np_min.
  induction ds as [| x ds IH]; intros d; simpl.
  - repeat split; [lra | constructor | now left].
  - destruct (IH (Rmin d x)) as (H1 & H2 & H3).
    pose proof (Rmin_l d x). pose proof (Rmin_r d x).
    split; [lra |]. split.
    + constructor; [lra | exact H2].
    + destruct H3 as [H3 | H3]; [| now right; right].
      rewrite <- H3. unfold Rmin. destruct (Rle_dec d x); [now left |].
      right; now left.
Qed.

Lemma np_max_spec ds : forall d,
  d <= np_max d ds
  /\ Forall (fun x => x <= np_max d ds) ds
  /\ In (np_max d ds) (d :: ds).
Proof.
  unfold np_max.
  induction ds as [| x ds IH]; intros d; simpl.
  - repeat split; [lra | constructor | now left].
  - destruct (IH (Rmax d x)) as (H1 & H2 & H3).
    pose proof (Rmax_l d x). pose proof (Rmax_r d x).
    split; [lra |]. split.
    + constructor; [lra | exact H2].
    + destruct H3 as [H3 | H3]; [| now right; right].
      rewrite <- H3. unfold Rmax. destruct (Rle_dec d x); [| now left].
      right; now left.
Qed.

Local Close Scope R_scope.

(** C5 (as amended). The chunk length is [int(sample_rate * 0.1)], the
    product truncated: [sample_rate // 10], also when the product is
    computed in double precision, for every sample rate up to 200 kHz.
    When it is at least 1,
    [analyze_audio] cuts a non-empty window into consecutive chunks of that
    length whose concatenation is the window; every chunk has between 1 and
    [chunk_size] samples and only the last one may have fewer than
    [chunk_size].  A chunk contributes a decibel value if and only if its
    length is at least [chunk_size // 2], the half rounded down.  An empty
    window, and a window none of whose chunks is valid, give [None].
    Otherwise the dictionary is returned whose [min_db] and [max_db] are the
    least and the greatest of the levels of the valid chunks, each the level
    of one of them, whose [avg_db] is the level of the whole window, whose
    [duration] is its length over the sample rate and whose [overflows] is
    the overflow count. *)
Theorem analyze_cuts_truncated_chunks :
  (forall s, analyze_window s [] = Ok None)
  /\ (forall s samples,
        1 <= chunk_size s ->
        samples <> [] ->
        exists starts,
          range0 (len samples) (chunk_size s) = Ok starts
          /\ chunk_size s = sample_rate s / 10
          /\ (sample_rate s <= 200000 ->
              Double.chunk_size s = Ok (chunk_size s))
          /\ concat (map (chunk_at (chunk_size s) samples) starts) = samples
          /\ (forall i chunk,
                nth_error (map (chunk_at (chunk_size s) samples) starts) i
                = Some chunk ->
                1 <= len chunk <= chunk_size s
                /\ ((i + 1 < length starts)%nat ->
                    len chunk = chunk_size s))
          /\ db_values_of (chunk_size s) samples starts
             = map calculate_db_from_samples
                 (filter (chunk_valid (chunk_size s))
                    (map (chunk_at (chunk_size s) samples) starts))
          /\ (forall chunk,
                chunk_valid (chunk_size s) chunk = true
                <-> chunk_size s / 2 <= len chunk)
          /\ (filter (chunk_valid (chunk_size s))
                 (map (chunk_at (chunk_size s) samples) starts) = [] ->
              analyze_window s samples = Ok None)
          /\ (filter (chunk_valid (chunk_size s))
                 (map (chunk_at (chunk_size s) samples) starts) <> [] ->
              exists d ds,
                map calculate_db_from_samples
                  (filter (chunk_valid (chunk_size s))
                     (map (chunk_at (chunk_size s) samples) starts))
                = d :: ds
                /\ analyze_window s samples
                   = Ok (Some (mkStats (np_min d ds) (np_max d ds)
                                 (calculate_db_from_samples samples)
                                 (IZR (len samples) / IZR (sample_rate s))
                                 (overflow_count s)))
                /\ In (np_min d ds) (d :: ds)
                /\ In (np_max d ds) (d :: ds)
                /\ Forall (fun x => (np_min d ds <= x <= np_max d ds)%R)
                     (d :: ds))).
Proof.
  split; [reflexivity |].
  intros s samples Hcs Hne.
  assert (Hn : 1 <= len samples).
  { destruct samples; [contradiction | unfold len; simpl; lia]. }
  pose proof (chunk_size_positive s Hcs) as Hsr.
  rewrite (range0_positive _ _ Hcs Hn).
  eexists. split; [reflexivity |].
  split; [apply chunk_size_floor; lia |].
  split; [intros Hmax; apply double_chunk_size_agrees; lia |].
  destruct (chunks_as_pieces samples (chunk_size s) Hcs Hne)
    as (Hpieces & Hk & Hlo & Hhi).
  set (k := Z.to_nat ((len samples + chunk_size s - 1) / chunk_size s)) in *.
  set (c := Z.to_nat (chunk_size s)) in *.
  set (starts := map (fun j => Z.of_nat j * chunk_size s) (seq 0 k)) in *.
  rewrite Hpieces.
  assert (Hwin : forall dbs,
             db_values_of (chunk_size s) samples starts = dbs ->
             analyze_window s samples
             = match dbs with
               | [] => Ok None
               | d :: ds =>
                   Ok (Some (mkStats (np_min d ds) (np_max d ds)
                               (calculate_db_from_samples samples)
                               (IZR (len samples) / IZR (sample_rate s))
                               (overflow_count s)))
               end).
  { intros dbs Hdbs. unfold analyze_window.
    destruct (Z.eqb_spec (len samples) 0); [lia |].
    rewrite (range0_positive _ _ Hcs Hn). fold k. fold starts.
    rewrite Hdbs. destruct dbs; [reflexivity |].
    destruct (Z.eqb_spec (sample_rate s) 0); [lia | reflexivity]. }
  split; [| split; [| split; [| split; [| split]]]].
  - rewrite concat_consecutive_chunks. apply firstn_all2. lia.
  - intros i chunk Hi.
    assert (Hik : (i < k)%nat).
    { assert (Hs : nth_error
                     (map (fun j => firstn c (skipn (j * c) samples)) (seq 0 k))
                     i <> None) by congruence.
      apply nth_error_Some in Hs.
      now rewrite length_map, length_seq in Hs. }
    rewrite nth_error_map, nth_error_seq in Hi.
    destruct (Nat.ltb_spec i k); [| lia].
    cbn in Hi. injection Hi as <-.
    unfold len, starts.
    rewrite length_firstn, length_skipn, length_map, length_seq.
    split; [nia | intros Hlast; nia].
  - rewrite db_values_of_filter. now rewrite Hpieces.
  - intros chunk. unfold chunk_valid. rewrite Z.geb_leb. apply Z.leb_le.
  - intros Hnone. apply (Hwin []).
    rewrite db_values_of_filter, Hpieces, Hnone. reflexivity.
  - intros Hsome.
    destruct (db_values_of (chunk_size s) samples starts) as [| d ds] eqn:Edb.
    + exfalso. apply Hsome.
      rewrite db_values_of_filter, Hpieces in Edb.
      now apply map_eq_nil in Edb.
    + exists d, ds.
      split; [now rewrite <- Hpieces, <- db_values_of_filter |].
      split; [apply (Hwin (d :: ds)); reflexivity |].
      destruct (np_min_spec ds d) as (Hm1 & Hm2 & Hm3).
      destruct (np_max_spec ds d) as (HM1 & HM2 & HM3).
      split; [exact Hm3 |]. split; [exact HM3 |].
      constructor; [split; assumption |].
      rewrite Forall_forall in *. intros x Hx.
      split; [now apply Hm2 | now apply HM2].
Qed.

(** Witness of C5: the four-sample window of [half_loud], in chunks of two. *)
Lemma analyze_cuts_truncated_chunks_witness :
  exists starts,
    range0 (len [1; -1; 0; 0]%R) (chunk_size half_loud) = Ok starts
    /\ chunk_size half_loud = sample_rate half_loud / 10
    /\ (sample_rate half_loud <= 200000 ->
        Double.chunk_size half_loud = Ok (chunk_size half_loud))
    /\ concat (map (chunk_at (chunk_size half_loud) [1; -1; 0; 0]%R) starts)
       = [1; -1; 0; 0]%R
    /\ (forall i chunk,
          nth_error
            (map (chunk_at (chunk_size half_loud) [1; -1; 0; 0]%R) starts) i
          = Some chunk ->
          1 <= len chunk <= chunk_size half_loud
          /\ ((i + 1 < length starts)%nat ->
              len chunk = chunk_size half_loud))
    /\ db_values_of (chunk_size half_loud) [1; -1; 0; 0]%R starts
       = map calculate_db_from_samples
           (filter (chunk_valid (chunk_size half_loud))
              (map (chunk_at (chunk_size half_loud) [1; -1; 0; 0]%R) starts))
    /\ (forall chunk,
          chunk_valid (chunk_size half_loud) chunk = true
          <-> chunk_size half_loud / 2 <= len chunk)
    /\ (filter (chunk_valid (chunk_size half_loud))
          (map (chunk_at (chunk_size half_loud) [1; -1; 0; 0]%R) starts) = [] ->
        analyze_window half_loud [1; -1; 0; 0]%R = Ok None)
    /\ (filter (chunk_valid (chunk_size half_loud))
          (map (chunk_at (chunk_size half_loud) [1; -1; 0; 0]%R) starts)
        <> [] ->
        exists d ds,
          map calculate_db_from_samples
            (filter (chunk_valid (chunk_size half_loud))
               (map (chunk_at (chunk_size half_loud) [1; -1; 0; 0]%R) starts))
          = d :: ds
          /\ analyze_window half_loud [1; -1; 0; 0]%R
             = Ok (Some (mkStats (np_min d ds) (np_max d ds)
                           (calculate_db_from_samples [1; -1; 0; 0]%R)
                           (IZR (len [1; -1; 0; 0]%R)
                            / IZR (sample_rate half_loud))
                           (overflow_count half_loud)))
          /\ In (np_min d ds) (d :: ds)
          /\ In (np_max d ds) (d :: ds)
          /\ Forall (fun x => (np_min d ds <= x <= np_max d ds)%R)
               (d :: ds)).
Proof.
  apply (proj2 analyze_cuts_truncated_chunks half_loud [1; -1; 0; 0]%R).
  - by_evaluation.
  - discriminate.
Defined.

(** C5, the claim as stated, fails.  At 16 Hz the chunks have
    [int(1.6) = 1] sample and not [round(1.6) = 2]: a window of four samples
    is cut into four chunks.  At 50 Hz (chunks of 5 samples) a trailing
    chunk of 2 samples, shorter than half the chunk length, passes the test
    [len(chunk) >= chunk_size // 2] and contributes a value. *)
Lemma analyze_chunking_counterexample :
  chunk_size rate16 = 1
  /\ spec_chunk_size rate16 = 2
  /\ range0 4 (chunk_size rate16) = Ok [0; 1; 2; 3]
  /\ chunk_size rate50 = 5
  /\ spec_chunk_size rate50 = 5
  /\ chunk_at 5 [0; 0; 0; 0; 0; 0; 0]%R 5 = [0; 0]%R
  /\ chunk_valid 5 [0; 0]%R = true
  /\ spec_chunk_valid 5 [0; 0]%R = false
  /\ length (db_values_of 5 [0; 0; 0; 0; 0; 0; 0]%R [0; 5]) = 2%nat
  /\ chunk_size rate16 <> spec_chunk_size rate16
  /\ chunk_valid 5 [0; 0]%R <> spec_chunk_valid 5 [0; 0]%R.
Proof.
  repeat split; try reflexivity; vm_compute; discriminate.
Qed.

(** ** The reader and the capture thread *)

Lemma ring6_reached :
  deliver [mono_block [1; 2; 3]%R; mono_block [4; 5; 6]%R] fresh4
  = (ring6, Ok tt).
Proof. vm_compute. reflexivity. Qed.

(** Run without interruption, the steps of the reader are the function. *)
Lemma reader_alone s d blocks :
  loc_result
    (exec [Processing; Processing; Processing; Processing; Processing]
       (concurrent s d blocks))
  = match get_recent_audio s d with
    | Ok win => Some win
    | Raise _ => None
    end.
Proof.
  unfold concurrent, get_recent_audio_ops, get_recent_audio.
  cbn -[pymod samples_needed slice slice_from slice_to].
  destruct (pymod (write_index s - samples_needed s d) (buffer_size s))
    as [st | e]; cbn -[slice slice_from slice_to]; [| reflexivity].
  destruct (st <? write_index s); reflexivity.
Qed.

Ltac not_a_segment H before :=
  repeat (destruct before as [| ? before]; simpl in H;
          [ solve [inversion H; lra]
          | first [ discriminate H | injection H as _ H ] ]).

(** C9. The lock does not guard the write.  [get_recent_audio] takes
    [buffer_lock] and holds it from the computation of the start index to
    the copy, but [audio_callback] has no lock operation, so a callback runs
    while the reader holds the lock.  On the four-sample ring holding
    3, 4, 5, 6, a read of the whole buffer interleaved with the write of the
    sample 7 returns 7, 4, 5, 6, 7: five samples, the newest before the
    oldest, which is not a run of consecutive samples of the stream.  The
    same read before the callback returns 3, 4, 5, 6 and after it
    4, 5, 6, 7. *)
Theorem unlocked_callback_tears_read :
  hd_error get_recent_audio_ops = Some AcquireLock
  /\ last get_recent_audio_ops CopyOut = ReleaseLock
  /\ (forall b, takes_lock (audio_callback_ops b) = false)
  /\ loc_result (exec interleaved (concurrent ring6 1 [mono_block [7]%R]))
     = Some [7; 4; 5; 6; 7]%R
  /\ inside_critical (exec interleaved (concurrent ring6 1 [mono_block [7]%R]))
     = 1%nat
  /\ ~ segment_of [7; 4; 5; 6; 7]%R [0; 0; 0; 0; 1; 2; 3; 4; 5; 6; 7]%R
  /\ get_recent_audio ring6 1 = Ok [3; 4; 5; 6]%R
  /\ get_recent_audio
       (fst (audio_callback (blk_indata (mono_block [7]%R)) 1 false ring6)) 1
     = Ok [4; 5; 6; 7]%R.
Proof.
  split; [reflexivity |]. split; [reflexivity |]. split; [reflexivity |].
  split; [vm_compute; reflexivity |].
  split; [vm_compute; reflexivity |].
  split; [| split; vm_compute; reflexivity].
  intros (before & after & H).
  not_a_segment H before.
Qed.

(** * Further properties of the code *)

(** ** [audio_callback], case by case *)

Section AssignFacts.
Context {A : Type}.
Implicit Types buf src : list A.

Lemma assign_range_length buf a b src buf' :
  0 <= a <= len buf -> b <= len buf ->
  assign_range buf a b src = Ok buf' ->
  len buf' = len buf.
Proof.
  intros Ha Hb. unfold assign_range.
  destruct (Z.eqb_spec (len src) (Z.max a b - a)) as [E | _].
  - intros [= <-]. unfold len in *.
    rewrite !length_app, length_firstn, length_skipn. lia.
  - destruct src as [| x [| y src]]; try discriminate.
    intros [= <-]. unfold len in *.
    rewrite !length_app, length_firstn, repeat_length, length_skipn. lia.
Qed.

Lemma assign_slice_length buf lo hi src buf' :
  assign_slice buf lo hi src = Ok buf' -> len buf' = len buf.
Proof.
  unfold assign_slice. apply assign_range_length.
  - apply norm_index_range, len_nonneg.
  - apply norm_index_range, len_nonneg.
Qed.

Lemma assign_slice_from_length buf lo src buf' :
  assign_slice_from buf lo src = Ok buf' -> len buf' = len buf.
Proof.
  unfold assign_slice_from. apply assign_range_length.
  - apply norm_index_range, len_nonneg.
  - lia.
Qed.

Lemma assign_slice_to_length buf hi src buf' :
  assign_slice_to buf hi src = Ok buf' -> len buf' = len buf.
Proof.
  unfold assign_slice_to. apply assign_range_length.
  - pose proof (len_nonneg buf). lia.
  - apply norm_index_range, len_nonneg.
Qed.

End AssignFacts.

(** The callback without the monad: where it can stop, and in which state. *)
Lemma audio_callback_cases indata frames ov s :
  audio_callback indata frames ov s
  = let s0 := if ov then set_overflow_count (overflow_count s + 1) s else s in
    match mono_data s indata with
    | Raise e => (s0, Raise e)
    | Ok mono =>
        let end_index := write_index s + frames in
        let finish b :=
          match pymod end_index (buffer_size s) with
          | Raise e => (set_audio_buffer b s0, Raise e)
          | Ok w =>
              (set_total_frames (total_frames s + frames)
                 (set_write_index w (set_audio_buffer b s0)), Ok tt)
          end in
        if end_index <=? buffer_size s then
          match assign_slice (audio_buffer s) (write_index s) end_index mono
          with
          | Raise e => (s0, Raise e)
          | Ok b => finish b
          end
        else
          match assign_slice_from (audio_buffer s) (write_index s)
                  (slice_to mono (buffer_size s - write_index s)) with
          | Raise e => (s0, Raise e)
          | Ok b1 =>
              match assign_slice_to b1 (end_index - buffer_size s)
                      (slice_from mono (buffer_size s - write_index s)) with
              | Raise e => (set_audio_buffer b1 s0, Raise e)
              | Ok b2 => finish b2
              end
          end
    end.
Proof.
  destruct s as [sr ch bd pi aw cap buf w oc tf st rdy].
  unfold audio_callback, bind, get, lift, modify, ret, store.
  destruct ov;
    unfold set_overflow_count;
    cbn [overflow_count sample_rate channels buffer_duration publish_interval
           analysis_window buffer_size audio_buffer write_index total_frames
           stream_start_time ready_to_publish];
    (change (mono_data (mkMonitor sr ch bd pi aw cap buf w (oc + 1) tf st rdy)
               indata)
      with (mono_data (mkMonitor sr ch bd pi aw cap buf w oc tf st rdy)
              indata) || idtac);
    destruct (mono_data (mkMonitor sr ch bd pi aw cap buf w oc tf st rdy)
                indata) as [mono | e]; try reflexivity;
    unfold bind, get, lift, modify, store;
    cbn [overflow_count sample_rate channels buffer_duration publish_interval
           analysis_window buffer_size audio_buffer write_index total_frames
           stream_start_time ready_to_publish];
    destruct (w + frames <=? cap);
    cbn [audio_buffer];
    repeat match goal with
      | |- context [match assign_slice ?a ?b ?c ?d with _ => _ end] =>
          destruct (assign_slice a b c d); cbn [audio_buffer set_audio_buffer]
      | |- context [match assign_slice_from ?a ?b ?c with _ => _ end] =>
          destruct (assign_slice_from a b c);
          cbn [audio_buffer set_audio_buffer]
      | |- context [match assign_slice_to ?a ?b ?c with _ => _ end] =>
          destruct (assign_slice_to a b c); cbn [audio_buffer set_audio_buffer]
      end;
    try reflexivity;
    destruct (pymod (w + frames) cap); reflexivity.
Qed.

Ltac callback_cases :=
  rewrite audio_callback_cases; cbv zeta;
  repeat match goal with
    | |- context [if ?b then set_overflow_count _ _ else _] => destruct b
    | |- context [match mono_data ?s ?i with _ => _ end] =>
        destruct (mono_data s i) eqn:?
    | |- context [if ?a <=? ?b then _ else _] =>
        destruct (Z.leb_spec a b)
    | |- context [match assign_slice ?a ?b ?c ?d with _ => _ end] =>
        destruct (assign_slice a b c d) eqn:?
    | |- context [match assign_slice_from ?a ?b ?c with _ => _ end] =>
        destruct (assign_slice_from a b c) eqn:?
    | |- context [match assign_slice_to ?a ?b ?c with _ => _ end] =>
        destruct (assign_slice_to a b c) eqn:?
    | |- context [match pymod ?a ?b with _ => _ end] =>
        destruct (pymod a b) eqn:?
    end.

Lemma pymod_range a b r : 0 < b -> pymod a b = Ok r -> 0 <= r < b.
Proof.
  intros Hb. rewrite pymod_ok by lia. intros [= <-].
  apply Z.mod_pos_bound; assumption.
Qed.

Lemma audio_callback_well_formed indata frames ov s :
  well_formed s -> well_formed (fst (audio_callback indata frames ov s)).
Proof.
  intros (Hcap & Hlen & Hw).
  callback_cases; unfold well_formed;
    cbn [fst set_overflow_count set_audio_buffer set_write_index
           set_total_frames buffer_size audio_buffer write_index];
    repeat match goal with
      | H : assign_slice _ _ _ _ = Ok _ |- _ =>
          apply assign_slice_length in H
      | H : assign_slice_from _ _ _ = Ok _ |- _ =>
          apply assign_slice_from_length in H
      | H : assign_slice_to _ _ _ = Ok _ |- _ =>
          apply assign_slice_to_length in H
      | H : pymod _ _ = Ok _ |- _ => apply pymod_range in H; [| lia]
      end;
    repeat split; try lia; congruence.
Qed.

Lemma deliver_well_formed blocks : forall s,
  well_formed s -> well_formed (fst (deliver blocks s)).
Proof.
  induction blocks as [| b blocks IH]; intros s Hwf; [exact Hwf |].
  simpl deliver. unfold bind.
  pose proof (audio_callback_well_formed (blk_indata b) (blk_frames b)
                (blk_overflow b) s Hwf) as H1.
  destruct (audio_callback _ _ _ s) as [s1 [[] | e]]; cbn [fst] in *.
  - now apply IH.
  - exact H1.
Qed.

(** X1. Whatever block the stream hands over (any shape, any frame count,
    matching the data or not) and however the call ends, a well-formed
    object stays well-formed: the buffer keeps exactly [buffer_size] samples
    and the write index stays inside it.  The same holds after any sequence
    of blocks. *)
Theorem callback_keeps_capacity :
  (forall indata frames ov s,
      well_formed s ->
      well_formed (fst (audio_callback indata frames ov s)))
  /\ (forall blocks s,
        well_formed s -> well_formed (fst (deliver blocks s))).
Proof.
  split.
  - apply audio_callback_well_formed.
  - intros blocks s. apply deliver_well_formed.
Qed.

(** Witness of X1: nine samples thrown at the fresh four-sample buffer. *)
Lemma callback_keeps_capacity_witness :
  well_formed
    (fst (audio_callback
            (blk_indata (mono_block [1; 2; 3; 4; 5; 6; 7; 8; 9]%R)) 9 false
            fresh4)).
Proof.
  apply (proj1 callback_keeps_capacity). by_evaluation.
Defined.

(** X2. A call of the callback that raises, for whatever reason, has not
    moved the write index and has not counted its frames. *)
Theorem failed_callback_keeps_cursor :
  forall indata frames ov s s' e,
    audio_callback indata frames ov s = (s', Raise e) ->
    write_index s' = write_index s /\ total_frames s' = total_frames s.
Proof.
  intros indata frames ov s s' e. callback_cases;
    intros [= <- ?]; try discriminate; split; reflexivity.
Qed.

(** Witness of X2: the overrun of the fresh four-sample buffer. *)
Lemma failed_callback_keeps_cursor_witness :
  write_index (mkMonitor 4 1 1 5 1 4 [1; 2; 3; 4]%R 0 0 0 None false)
  = write_index fresh4
  /\ total_frames (mkMonitor 4 1 1 5 1 4 [1; 2; 3; 4]%R 0 0 0 None false)
     = total_frames fresh4.
Proof.
  apply (failed_callback_keeps_cursor
           (blk_indata (mono_block [1; 2; 3; 4; 5; 6; 7; 8; 9]%R)) 9 false
           fresh4 _ ValueError).
  vm_compute. reflexivity.
Defined.

(** ** Writes followed by reads *)

Lemma last_n_of_last_n {A} (n k : nat) (l : list A) :
  (n <= k)%nat -> last_n n (last_n k l) = last_n n l.
Proof.
  intros H. unfold last_n. rewrite length_skipn, skipn_skipn. f_equal. lia.
Qed.

Lemma length_ring_view s :
  well_formed s -> length (ring_view s) = Z.to_nat (buffer_size s).
Proof.
  intros (Hc & Hl & Hw). unfold ring_view, len in *.
  rewrite length_app, length_skipn, length_firstn. lia.
Qed.

(** The storage is determined by the ring and the write index. *)
Lemma ring_view_determines_buffer s1 s2 :
  well_formed s1 -> well_formed s2 ->
  buffer_size s1 = buffer_size s2 ->
  write_index s1 = write_index s2 ->
  ring_view s1 = ring_view s2 ->
  audio_buffer s1 = audio_buffer s2.
Proof.
  intros (Hc1 & Hl1 & Hw1) (Hc2 & Hl2 & Hw2) Hsz Hw Hv.
  unfold ring_view, len in *. rewrite Hw in *.
  set (w := Z.to_nat (write_index s2)) in *.
  assert (Hs : skipn w (audio_buffer s1) = skipn w (audio_buffer s2)).
  { apply (f_equal (firstn (length (audio_buffer s1) - w))) in Hv.
    rewrite !firstn_app_exact in Hv by (rewrite length_skipn; lia).
    exact Hv. }
  assert (Hf : firstn w (audio_buffer s1) = firstn w (audio_buffer s2)).
  { rewrite Hs in Hv. now apply app_inv_head in Hv. }
  rewrite <- (firstn_skipn w (audio_buffer s1)).
  rewrite <- (firstn_skipn w (audio_buffer s2)).
  now rewrite Hs, Hf.
Qed.

Lemma deliver_counters blocks : forall ms s,
  well_formed s ->
  Forall2 (carries s) blocks ms ->
  Forall (fun m => len m <= buffer_size s) ms ->
  total_frames (fst (deliver blocks s)) = total_frames s + len (concat ms)
  /\ overflow_count (fst (deliver blocks s))
     = overflow_count s + Z.of_nat (length (filter blk_overflow blocks)).
Proof.
  induction blocks as [| b blocks IH]; intros ms s Hwf Hcar Hsize.
  - inversion Hcar; subst. simpl. unfold len. simpl. lia.
  - inversion Hcar as [| b' m bs ms' [Hm Hf] Hrest]; subst.
    inversion Hsize as [| m' ms'' Hle Hsize']; subst.
    destruct (audio_callback_fits (blk_indata b) (blk_frames b)
                (blk_overflow b) s m Hwf Hm Hf)
      as (s1 & Hrun & Hwf1 & Hcfg1 & _ & _ & Htf & Hoc).
    { destruct Hwf as (Hc & Hl & Hw). lia. }
    assert (Hsz : buffer_size s1 = buffer_size s) by apply Hcfg1.
    destruct (IH ms' s1 Hwf1) as [IHt IHo].
    { eapply Forall2_impl; [| exact Hrest].
      intros; eapply carries_same_config; eauto. }
    { now rewrite Hsz. }
    simpl deliver. rewrite (bind_ok _ _ _ _ _ Hrun).
    rewrite IHt, IHo, Htf, Hoc. simpl concat. rewrite len_app.
    simpl filter. destruct (blk_overflow b); simpl length; lia.
Qed.

(** X3. Read after write.  After any sequence of blocks of at most
    [capacity] samples each, written to a well-formed object, a request for
    [n >= 1] samples returns the last [n] samples of the stream: what the
    ring held before, followed by everything written since.  Started from
    [setup_audio_device], what the ring held before is the zero fill. *)
Theorem read_after_writes :
  (forall blocks ms s d,
      well_formed s ->
      Forall2 (carries s) blocks ms ->
      Forall (fun m => len m <= buffer_size s) ms ->
      1 <= int (inject_Z (sample_rate s) * d) ->
      exists s',
        deliver blocks s = (s', Ok tt)
        /\ get_recent_audio s' d
           = Ok (last_n (Z.to_nat (samples_needed s d))
                   (ring_view s ++ concat ms)))
  /\ (forall chans bd pi aw rate s,
        setup_audio_device chans bd pi aw rate = Ok s ->
        ring_view s = repeat 0%R (Z.to_nat (buffer_size s))).
Proof.
  split.
  - intros blocks ms s d Hwf Hcar Hsz Hd.
    destruct (deliver_ring blocks ms s Hwf Hcar Hsz)
      as (s' & Hrun & Hwf' & Hcfg & _ & Hview).
    exists s'. split; [exact Hrun |].
    destruct Hcfg as (Hsr & _ & _ & _ & _ & Hbs & _).
    assert (Hn : samples_needed s' d = samples_needed s d).
    { now rewrite !samples_needed_min, Hsr, Hbs. }
    pose proof (samples_needed_bound s d) as Hb.
    assert (H1 : 1 <= samples_needed s d).
    { rewrite samples_needed_min. destruct Hwf. lia. }
    rewrite get_recent_audio_recent by (assumption || lia).
    rewrite Hn, Hview. f_equal. apply last_n_of_last_n. lia.
  - intros chans bd pi aw rate s. unfold setup_audio_device.
    destruct (_ <? 0); [discriminate |]. intros [= <-].
    unfold ring_view. cbn [write_index audio_buffer buffer_size].
    simpl. apply app_nil_r.
Qed.

(** Witness of X3: two samples read back after 1 to 6 were written. *)
Lemma read_after_writes_witness :
  exists s',
    deliver [mono_block [1; 2; 3]%R; mono_block [4; 5; 6]%R] fresh4
    = (s', Ok tt)
    /\ get_recent_audio s' (1 # 2)
       = Ok (last_n (Z.to_nat (samples_needed fresh4 (1 # 2)))
               (ring_view fresh4 ++ concat [[1; 2; 3]; [4; 5; 6]]%R)).
Proof.
  apply (proj1 read_after_writes
           [mono_block [1; 2; 3]%R; mono_block [4; 5; 6]%R]
           [[1; 2; 3]; [4; 5; 6]]%R fresh4 (1 # 2)).
  - by_evaluation.
  - repeat constructor.
  - repeat constructor; by_evaluation.
  - by_evaluation.
Defined.

(** X4. Over a sequence of blocks of at most [capacity] samples each,
    [total_frames] grows by the number of samples written and
    [overflow_count] by the number of blocks flagged with an input
    overflow. *)
Theorem callbacks_count_frames_and_overflows :
  forall blocks ms s,
    well_formed s ->
    Forall2 (carries s) blocks ms ->
    Forall (fun m => len m <= buffer_size s) ms ->
    total_frames (fst (deliver blocks s)) = total_frames s + len (concat ms)
    /\ overflow_count (fst (deliver blocks s))
       = overflow_count s + Z.of_nat (length (filter blk_overflow blocks)).
Proof. intros blocks ms s. apply deliver_counters. Qed.

(** Witness of X4: a clean block of three and a flagged block of two. *)
Lemma callbacks_count_frames_and_overflows_witness :
  total_frames
    (fst (deliver [mono_block [1; 2; 3]%R;
                   mkBlock [[4]; [5]]%R 2 true] fresh4))
  = total_frames fresh4 + len (concat [[1; 2; 3]; [4; 5]]%R)
  /\ overflow_count
       (fst (deliver [mono_block [1; 2; 3]%R;
                      mkBlock [[4]; [5]]%R 2 true] fresh4))
     = overflow_count fresh4
       + Z.of_nat (length (filter blk_overflow
                             [mono_block [1; 2; 3]%R;
                              mkBlock [[4]; [5]]%R 2 true])).
Proof.
  apply (callbacks_count_frames_and_overflows
           [mono_block [1; 2; 3]%R; mkBlock [[4]; [5]]%R 2 true]
           [[1; 2; 3]; [4; 5]]%R fresh4).
  - by_evaluation.
  - repeat constructor.
  - repeat constructor; by_evaluation.
Defined.

(** X5. An empty block is a no-op on the ring: the call returns normally and
    leaves the storage, the write index and the frame total as they were;
    only the overflow counter moves, when the block is flagged. *)
Theorem empty_block_changes_nothing :
  forall indata ov s,
    well_formed s ->
    mono_data s indata = Ok [] ->
    exists s',
      audio_callback indata 0 ov s = (s', Ok tt)
      /\ audio_buffer s' = audio_buffer s
      /\ write_index s' = write_index s
      /\ total_frames s' = total_frames s
      /\ overflow_count s' = overflow_count s + (if ov then 1 else 0).
Proof.
  intros indata ov s Hwf Hmono.
  destruct (audio_callback_fits indata 0 ov s [] Hwf Hmono eq_refl)
    as (s' & Hrun & Hwf' & Hcfg & Hw & Hview & Htf & Hoc).
  { destruct Hwf as (Hc & Hl & Hi). lia. }
  assert (Hw' : write_index s' = write_index s).
  { rewrite Hw, Z.add_0_r. apply Z.mod_small. apply Hwf. }
  exists s'. split; [exact Hrun |]. split; [| split; [exact Hw' |]].
  - apply ring_view_determines_buffer; try assumption.
    + apply Hcfg.
    + rewrite Hview, app_nil_r. apply last_n_all.
      rewrite length_ring_view by assumption. lia.
  - split; [lia | exact Hoc].
Qed.

(** Witness of X5: an empty block handed to the ring holding 3, 4, 5, 6. *)
Lemma empty_block_changes_nothing_witness :
  exists s',
    audio_callback [] 0 true ring6 = (s', Ok tt)
    /\ audio_buffer s' = audio_buffer ring6
    /\ write_index s' = write_index ring6
    /\ total_frames s' = total_frames ring6
    /\ overflow_count s' = overflow_count ring6 + 1.
Proof.
  apply (empty_block_changes_nothing [] true ring6).
  - by_evaluation.
  - reflexivity.
Defined.

(** X6. How the stream is cut into blocks does not matter: two sequences of
    blocks (of at most [capacity] samples each) that carry the same samples
    leave the same storage, the same write index and the same frame
    total. *)
Theorem block_boundaries_do_not_matter :
  forall blocks1 ms1 blocks2 ms2 s,
    well_formed s ->
    Forall2 (carries s) blocks1 ms1 ->
    Forall (fun m => len m <= buffer_size s) ms1 ->
    Forall2 (carries s) blocks2 ms2 ->
    Forall (fun m => len m <= buffer_size s) ms2 ->
    concat ms1 = concat ms2 ->
    audio_buffer (fst (deliver blocks1 s))
    = audio_buffer (fst (deliver blocks2 s))
    /\ write_index (fst (deliver blocks1 s))
       = write_index (fst (deliver blocks2 s))
    /\ total_frames (fst (deliver blocks1 s))
       = total_frames (fst (deliver blocks2 s)).
Proof.
  intros blocks1 ms1 blocks2 ms2 s Hwf Hc1 Hs1 Hc2 Hs2 Heq.
  destruct (deliver_counters blocks1 ms1 s Hwf Hc1 Hs1) as [Ht1 _].
  destruct (deliver_counters blocks2 ms2 s Hwf Hc2 Hs2) as [Ht2 _].
  destruct (deliver_ring blocks1 ms1 s Hwf Hc1 Hs1)
    as (s1 & Hrun1 & Hwf1 & Hcfg1 & Hw1 & Hv1).
  destruct (deliver_ring blocks2 ms2 s Hwf Hc2 Hs2)
    as (s2 & Hrun2 & Hwf2 & Hcfg2 & Hw2 & Hv2).
  rewrite Hrun1, Hrun2 in *. cbn [fst] in *.
  assert (Hw : write_index s1 = write_index s2) by now rewrite Hw1, Hw2, Heq.
  split; [| split; [exact Hw | now rewrite Ht1, Ht2, Heq]].
  apply ring_view_determines_buffer; try assumption.
  - destruct Hcfg1 as (_ & _ & _ & _ & _ & E1 & _).
    destruct Hcfg2 as (_ & _ & _ & _ & _ & E2 & _). now rewrite E1, E2.
  - now rewrite Hv1, Hv2, Heq.
Qed.

(** Witness of X6: the samples 1 to 6 in blocks of three, or as 1, then
    2 to 4, then 5 and 6. *)
Lemma block_boundaries_do_not_matter_witness :
  audio_buffer
    (fst (deliver [mono_block [1; 2; 3]%R; mono_block [4; 5; 6]%R] fresh4))
  = audio_buffer
      (fst (deliver [mono_block [1]%R; mono_block [2; 3; 4]%R;
                     mono_block [5; 6]%R] fresh4))
  /\ write_index
       (fst (deliver [mono_block [1; 2; 3]%R; mono_block [4; 5; 6]%R] fresh4))
     = write_index
         (fst (deliver [mono_block [1]%R; mono_block [2; 3; 4]%R;
                        mono_block [5; 6]%R] fresh4))
  /\ total_frames
       (fst (deliver [mono_block [1; 2; 3]%R; mono_block [4; 5; 6]%R] fresh4))
     = total_frames
         (fst (deliver [mono_block [1]%R; mono_block [2; 3; 4]%R;
                        mono_block [5; 6]%R] fresh4)).
Proof.
  apply (block_boundaries_do_not_matter
           [mono_block [1; 2; 3]%R; mono_block [4; 5; 6]%R]
           [[1; 2; 3]; [4; 5; 6]]%R
           [mono_block [1]%R; mono_block [2; 3; 4]%R; mono_block [5; 6]%R]
           [[1]; [2; 3; 4]; [5; 6]]%R fresh4).
  - by_evaluation.
  - repeat constructor.
  - repeat constructor; by_evaluation.
  - repeat constructor.
  - repeat constructor; by_evaluation.
  - reflexivity.
Defined.

(** X7. A buffer of zero samples (a sample rate and a buffer duration whose
    product is below 1) cannot be used: every call of the callback raises,
    every [get_recent_audio] raises [ZeroDivisionError], and [analyze_audio]
    returns [None]. *)
Theorem zero_sized_buffer_is_unusable :
  forall s,
    buffer_size s = 0 ->
    (forall indata frames ov,
        exists e, snd (audio_callback indata frames ov s) = Raise e)
    /\ (forall d, get_recent_audio s d = Raise ZeroDivisionError)
    /\ analyze_audio s = None.
Proof.
  intros s H0.
  assert (Hget : forall d, get_recent_audio s d = Raise ZeroDivisionError).
  { intros d. unfold get_recent_audio. now rewrite H0. }
  split; [| split; [exact Hget |]].
  - intros indata frames ov. callback_cases; cbn [snd]; eauto.
    all: rewrite H0 in *; discriminate.
  - unfold analyze_audio, analyze_audio_try. now rewrite Hget.
Qed.

(** Witness of X7: a 4 Hz device with a buffer duration of 0.1 s. *)
Lemma zero_sized_buffer_is_unusable_witness :
  (forall indata frames ov,
      exists e,
        snd (audio_callback indata frames ov
               (mkMonitor 4 1 (1 # 10) 5 1 0 [] 0 0 0 None false)) = Raise e)
  /\ (forall d,
        get_recent_audio (mkMonitor 4 1 (1 # 10) 5 1 0 [] 0 0 0 None false) d
        = Raise ZeroDivisionError)
  /\ analyze_audio (mkMonitor 4 1 (1 # 10) 5 1 0 [] 0 0 0 None false) = None.
Proof.
  apply (zero_sized_buffer_is_unusable
           (mkMonitor 4 1 (1 # 10) 5 1 0 [] 0 0 0 None false)).
  reflexivity.
Defined.

(** X8. Requests agree with each other: on one state of the ring, the window
    for a shorter duration is the end of the window for a longer one. *)
Theorem shorter_window_is_suffix :
  forall s d1 d2,
    well_formed s ->
    1 <= samples_needed s d1 <= samples_needed s d2 ->
    exists w1 w2,
      get_recent_audio s d1 = Ok w1
      /\ get_recent_audio s d2 = Ok w2
      /\ w1 = last_n (Z.to_nat (samples_needed s d1)) w2.
Proof.
  intros s d1 d2 Hwf Hn.
  rewrite !get_recent_audio_recent by (assumption || lia).
  eexists. eexists. split; [reflexivity |]. split; [reflexivity |].
  symmetry. apply last_n_of_last_n. lia.
Qed.

(** Witness of X8: 0.3 s and 0.7 s out of the full ten-sample buffer. *)
Lemma shorter_window_is_suffix_witness :
  exists w1 w2,
    get_recent_audio full10 (3 # 10) = Ok w1
    /\ get_recent_audio full10 (7 # 10) = Ok w2
    /\ w1 = last_n (Z.to_nat (samples_needed full10 (3 # 10))) w2.
Proof.
  apply (shorter_window_is_suffix full10 (3 # 10) (7 # 10)).
  - by_evaluation.
  - by_evaluation.
Defined.

(** ** Channel reduction *)

Lemma column_wide k indata :
  Forall (fun row => (k < length row)%nat) indata ->
  column k indata = Ok (map (fun row => nth k row 0%R) indata).
Proof.
  induction 1 as [| row rest Hrow _ IH]; [reflexivity |].
  simpl. rewrite IH.
  destruct (nth_error row k) as [x |] eqn:E.
  - now rewrite (nth_error_nth _ _ _ E).
  - apply nth_error_None in E. lia.
Qed.

Lemma column_narrow k indata :
  Exists (fun row => (length row <= k)%nat) indata ->
  column k indata = Raise IndexError.
Proof.
  induction 1 as [row rest Hrow | row rest _ IH]; simpl.
  - apply nth_error_None in Hrow. now rewrite Hrow.
  - rewrite IH. now destruct (nth_error row k).
Qed.

(** X9. With [channels = 1] the mono data is the first channel of the block,
    whatever other channels it has.  With any other value it is, frame by
    frame, half the sum of the first two channels; further channels are
    ignored.  A block one of whose frames has fewer than two channels then
    makes the callback raise [IndexError] before the buffer is touched. *)
Theorem channel_reduction :
  (forall s indata,
      channels s = 1 ->
      Forall (fun row => (0 < length row)%nat) indata ->
      mono_data s indata = Ok (map (fun row => nth 0 row 0%R) indata))
  /\ (forall s indata,
        channels s <> 1 ->
        Forall (fun row => (1 < length row)%nat) indata ->
        mono_data s indata
        = Ok (map (fun row => ((nth 0 row 0 + nth 1 row 0) * 0.5)%R) indata))
  /\ (forall s indata frames ov,
        channels s <> 1 ->
        Exists (fun row => (length row <= 1)%nat) indata ->
        exists s',
          audio_callback indata frames ov s = (s', Raise IndexError)
          /\ audio_buffer s' = audio_buffer s
          /\ write_index s' = write_index s
          /\ total_frames s' = total_frames s).
Proof.
  split; [| split].
  - intros s indata Hc Hrows. unfold mono_data.
    destruct (Z.eqb_spec (channels s) 1); [| contradiction].
    now apply column_wide.
  - intros s indata Hc Hrows. unfold mono_data.
    destruct (Z.eqb_spec (channels s) 1); [contradiction |].
    rewrite (column_wide 0), (column_wide 1); try assumption.
    + f_equal. unfold mix.
      clear. induction indata as [| row rest IH]; [reflexivity |].
      simpl. now rewrite IH.
    + eapply Forall_impl; [| exact Hrows]. simpl. intros; lia.
  - intros s indata frames ov Hc Hrows.
    assert (Hm : mono_data s indata = Raise IndexError).
    { unfold mono_data.
      destruct (Z.eqb_spec (channels s) 1); [contradiction |].
      rewrite (column_narrow 1) by assumption.
      destruct (column 0 indata) as [a | e] eqn:E; [reflexivity |].
      destruct (Exists_dec (fun row => (length row <= 0)%nat) indata)
        as [Hex | Hno].
      { intros row. destruct (le_dec (length row) 0); [left | right]; lia. }
      - rewrite (column_narrow 0) in E by assumption. congruence.
      - rewrite column_wide in E; [discriminate |].
        apply Forall_forall. intros row Hin.
        destruct (Nat.eq_dec (length row) 0) as [E0 | ]; [| lia].
        exfalso. apply Hno. apply Exists_exists. exists row. split; [easy | lia]. }
    rewrite audio_callback_cases, Hm. cbv zeta.
    eexists. split; [reflexivity |]. destruct ov; repeat split.
Qed.

(** Witness of X9: a stereo block of two frames. *)
Lemma channel_reduction_witness :
  mono_data (mkMonitor 4 2 1 5 1 4 [0; 0; 0; 0]%R 0 0 0 None false)
    [[1; 3]; [2; 4]]%R
  = Ok (map (fun row => ((nth 0 row 0 + nth 1 row 0) * 0.5)%R)
          [[1; 3]; [2; 4]]%R).
Proof.
  apply (proj1 (proj2 channel_reduction)).
  - by_evaluation.
  - repeat constructor.
Defined.

(** ** The statistics *)

Local Open Scope R_scope.

(** X13. In every dictionary [analyze_audio] builds, [min_db] and [max_db]
    are two of the per-chunk levels, every per-chunk level lies between
    them, and [min_db <= max_db]. *)
Theorem statistics_bracket_the_chunk_levels :
  forall s samples stats,
    analyze_window s samples = Ok (Some stats) ->
    exists starts,
      range0 (len samples) (chunk_size s) = Ok starts
      /\ In (min_db stats) (db_values_of (chunk_size s) samples starts)
      /\ In (max_db stats) (db_values_of (chunk_size s) samples starts)
      /\ Forall (fun x => min_db stats <= x <= max_db stats)
           (db_values_of (chunk_size s) samples starts)
      /\ min_db stats <= max_db stats.
Proof.
  intros s samples stats H.
  destruct (analyze_window_some s samples stats H)
    as (starts & d & ds & Hne & Hr & Hdb & ->).
  exists starts. split; [exact Hr |]. rewrite Hdb. cbn [min_db max_db].
  destruct (np_min_spec ds d) as (Hm1 & Hm2 & Hm3).
  destruct (np_max_spec ds d) as (HM1 & HM2 & HM3).
  split; [exact Hm3 |]. split; [exact HM3 |]. split; [| lra].
  constructor; [lra |].
  rewrite Forall_forall in *. intros x Hx.
  specialize (Hm2 x Hx). specialize (HM2 x Hx). lra.
Qed.

(** Witness of X13: the statistics of the window [1, -1, 0, 0] at 20 Hz. *)
Lemma statistics_bracket_the_chunk_levels_witness :
  exists starts,
    range0 (len [1; -1; 0; 0]) (chunk_size half_loud) = Ok starts
    /\ In (min_db (mkStats (np_min (20 * log10 1) [floor_db])
                     (np_max (20 * log10 1) [floor_db])
                     (20 * log10 (sqrt (1 / 2))) (IZR 4 / IZR 20) 0))
         (db_values_of (chunk_size half_loud) [1; -1; 0; 0] starts)
    /\ In (max_db (mkStats (np_min (20 * log10 1) [floor_db])
                     (np_max (20 * log10 1) [floor_db])
                     (20 * log10 (sqrt (1 / 2))) (IZR 4 / IZR 20) 0))
         (db_values_of (chunk_size half_loud) [1; -1; 0; 0] starts)
    /\ Forall
         (fun x =>
            min_db (mkStats (np_min (20 * log10 1) [floor_db])
                      (np_max (20 * log10 1) [floor_db])
                      (20 * log10 (sqrt (1 / 2))) (IZR 4 / IZR 20) 0)
            <= x
            <= max_db (mkStats (np_min (20 * log10 1) [floor_db])
                         (np_max (20 * log10 1) [floor_db])
                         (20 * log10 (sqrt (1 / 2))) (IZR 4 / IZR 20) 0))
         (db_values_of (chunk_size half_loud) [1; -1; 0; 0] starts)
    /\ min_db (mkStats (np_min (20 * log10 1) [floor_db])
                 (np_max (20 * log10 1) [floor_db])
                 (20 * log10 (sqrt (1 / 2))) (IZR 4 / IZR 20) 0)
       <= max_db (mkStats (np_min (20 * log10 1) [floor_db])
                    (np_max (20 * log10 1) [floor_db])
                    (20 * log10 (sqrt (1 / 2))) (IZR 4 / IZR 20) 0).
Proof.
  apply (statistics_bracket_the_chunk_levels half_loud [1; -1; 0; 0]).
  pose proof analyze_audio_half_loud as H.
  unfold analyze_audio, analyze_audio_try in H.
  replace (get_recent_audio half_loud (analysis_window half_loud))
    with (Ok [1; -1; 0; 0]) in H by (vm_compute; reflexivity).
  destruct (analyze_window half_loud [1; -1; 0; 0]) as [[st |] | e];
    try discriminate.
  now injection H as ->.
Defined.

Local Close Scope R_scope.

Lemma len_slice_le {A} (l : list A) i j : len (slice l i j) <= len l.
Proof.
  unfold slice, len. rewrite length_firstn, length_skipn. lia.
Qed.

Lemma filter_none {A} (f : A -> bool) (l : list A) :
  (forall x, In x l -> f x = false) -> filter f l = [].
Proof.
  induction l as [| x l IH]; intros H; [reflexivity |].
  simpl. rewrite (H x) by now left.
  apply IH. intros y Hy. apply H. now right.
Qed.

(** The outcome of the analysis of a window, by its list of levels. *)
Lemma analyze_window_by_levels s samples :
  1 <= chunk_size s -> samples <> [] ->
  exists starts,
    range0 (len samples) (chunk_size s) = Ok starts
    /\ analyze_window s samples
       = match db_values_of (chunk_size s) samples starts with
         | [] => Ok None
         | d :: ds =>
             Ok (Some (mkStats (np_min d ds) (np_max d ds)
                         (calculate_db_from_samples samples)
                         (IZR (len samples) / IZR (sample_rate s))
                         (overflow_count s)))
         end.
Proof.
  intros Hcs Hne.
  assert (Hn : 1 <= len samples).
  { destruct samples; [contradiction | unfold len; simpl; lia]. }
  pose proof (chunk_size_positive s Hcs) as Hsr.
  eexists. split; [apply (range0_positive _ _ Hcs Hn) |].
  unfold analyze_window.
  destruct (Z.eqb_spec (len samples) 0); [lia |].
  rewrite (range0_positive _ _ Hcs Hn).
  destruct (db_values_of _ _ _); [reflexivity |].
  destruct (Z.eqb_spec (sample_rate s) 0); [lia | reflexivity].
Qed.

Lemma analyze_window_half_chunk s samples :
  1 <= chunk_size s ->
  samples <> [] ->
  (chunk_size s / 2 <= len samples ->
   exists stats, analyze_window s samples = Ok (Some stats))
  /\ (len samples < chunk_size s / 2 ->
      analyze_window s samples = Ok None).
Proof.
  intros Hcs Hne.
  destruct (analyze_window_by_levels s samples Hcs Hne)
    as (starts & Hr & Hwin).
  assert (Hn : 1 <= len samples).
  { destruct samples; [contradiction | unfold len; simpl; lia]. }
  rewrite (range0_positive _ _ Hcs Hn) in Hr. injection Hr as <-.
  destruct (chunks_as_pieces samples (chunk_size s) Hcs Hne)
    as (Hpieces & Hk & Hlo & Hhi).
  set (k := Z.to_nat ((len samples + chunk_size s - 1) / chunk_size s)) in *.
  set (c := Z.to_nat (chunk_size s)) in *.
  rewrite Hwin, db_values_of_filter. split.
  - intros Hhalf. destruct k as [| k']; [lia |].
    rewrite Hpieces. cbn [seq map filter].
    replace (chunk_valid (chunk_size s) (firstn c (skipn (0 * c) samples)))
      with true.
    + cbn [map]. eexists; reflexivity.
    + symmetry. unfold chunk_valid. apply Z.geb_le. unfold len in *.
      simpl skipn. rewrite length_firstn.
      pose proof (Z.div_le_upper_bound (chunk_size s) 2 (chunk_size s)
                    ltac:(lia) ltac:(lia)).
      lia.
  - intros Hshort.
    rewrite filter_none; [reflexivity |].
    intros chunk Hin. apply in_map_iff in Hin. destruct Hin as (i & <- & _).
    unfold chunk_valid, chunk_at.
    pose proof (len_slice_le samples i (i + chunk_size s)).
    destruct (Z.geb_spec (len (slice samples i (i + chunk_size s)))
                (chunk_size s / 2)); [lia | reflexivity].
Qed.

(** X14. With a chunk length of at least 1, a non-empty window yields
    statistics exactly when it has at least [chunk_size // 2] samples;
    a shorter window yields [None]. *)
Theorem statistics_need_half_a_chunk :
  forall s samples,
    1 <= chunk_size s ->
    samples <> [] ->
    (chunk_size s / 2 <= len samples ->
     exists stats, analyze_window s samples = Ok (Some stats))
    /\ (len samples < chunk_size s / 2 ->
        analyze_window s samples = Ok None).
Proof. exact analyze_window_half_chunk. Qed.

(** Witness of X14: the window [1, -1, 0, 0] at 20 Hz. *)
Lemma statistics_need_half_a_chunk_witness :
  (chunk_size half_loud / 2 <= len [1; -1; 0; 0]%R ->
   exists stats, analyze_window half_loud [1; -1; 0; 0]%R = Ok (Some stats))
  /\ (len [1; -1; 0; 0]%R < chunk_size half_loud / 2 ->
      analyze_window half_loud [1; -1; 0; 0]%R = Ok None).
Proof.
  apply (statistics_need_half_a_chunk half_loud [1; -1; 0; 0]%R).
  - by_evaluation.
  - discriminate.
Defined.

(** The window cut out for the analysis, when at least one sample is asked
    for. *)
Lemma analysis_window_samples s :
  well_formed s ->
  1 <= samples_needed s (analysis_window s) ->
  exists win,
    get_recent_audio s (analysis_window s) = Ok win
    /\ len win = samples_needed s (analysis_window s)
    /\ win <> [].
Proof.
  intros Hwf Hn.
  rewrite get_recent_audio_recent by assumption.
  eexists. split; [reflexivity |].
  pose proof (samples_needed_bound s (analysis_window s)) as Hb.
  assert (Hl : len (last_n (Z.to_nat (samples_needed s (analysis_window s)))
                      (ring_view s))
               = samples_needed s (analysis_window s)).
  { unfold len. rewrite length_last_n, length_ring_view by assumption. lia. }
  split; [exact Hl |]. intros E. rewrite E in Hl. unfold len in Hl.
  simpl in Hl. lia.
Qed.

Lemma analyze_audio_returns_statistics s :
  well_formed s ->
  1 <= chunk_size s ->
  1 <= samples_needed s (analysis_window s) ->
  chunk_size s / 2 <= samples_needed s (analysis_window s) ->
  exists stats, analyze_audio s = Some stats.
Proof.
  intros Hwf Hcs Hn Hhalf.
  destruct (analysis_window_samples s Hwf Hn) as (win & Hget & Hlen & Hne).
  destruct (analyze_window_half_chunk s win Hcs Hne) as [Hsome _].
  destruct Hsome as [stats Hstats]; [lia |].
  exists stats. unfold analyze_audio, analyze_audio_try.
  now rewrite Hget, Hstats.
Qed.

Lemma levels_all_equal v d ds :
  Forall (fun x => x = v) (d :: ds) -> np_min d ds = v /\ np_max d ds = v.
Proof.
  intros H. rewrite Forall_forall in H. split; apply H.
  - apply np_min_spec.
  - apply np_max_spec.
Qed.

Lemma slice_keeps {A} (P : A -> Prop) (l : list A) i j :
  Forall P l -> Forall P (slice l i j).
Proof.
  intros H. unfold slice. now apply Forall_firstn_keep, Forall_skipn_keep.
Qed.

(** X15. A silent buffer measures the floor everywhere: when the buffer
    holds only zeros (as it does before any data has been written) and the
    window has at least [chunk_size // 2] samples, [analyze_audio] returns
    [min_db = max_db = avg_db = -80], the window's length in seconds and the
    overflow count. *)
Theorem silent_buffer_measures_the_floor :
  forall s,
    well_formed s ->
    1 <= chunk_size s ->
    Forall (fun x => x = 0%R) (audio_buffer s) ->
    1 <= samples_needed s (analysis_window s) ->
    chunk_size s / 2 <= samples_needed s (analysis_window s) ->
    analyze_audio s
    = Some (mkStats (-80) (-80) (-80)
              (IZR (samples_needed s (analysis_window s))
               / IZR (sample_rate s))
              (overflow_count s)).
Proof.
  intros s Hwf Hcs Hzero Hn Hhalf.
  destruct (analysis_window_samples s Hwf Hn) as (win & Hget & Hlen & Hne).
  pose proof (get_recent_audio_keeps _ s _ win Hwf Hzero Hget) as Hwz.
  destruct (analyze_window_by_levels s win Hcs Hne) as (starts & _ & Hwin).
  destruct (analyze_window_half_chunk s win Hcs Hne) as [Hsome _].
  destruct Hsome as [stats Hstats]; [lia |].
  unfold analyze_audio, analyze_audio_try. rewrite Hget, Hwin.
  rewrite Hwin in Hstats.
  assert (Hall : Forall (fun x => x = floor_db)
                   (db_values_of (chunk_size s) win starts)).
  { rewrite db_values_of_filter. apply Forall_forall. intros x Hx.
    apply in_map_iff in Hx. destruct Hx as (chunk & <- & Hin).
    apply filter_In in Hin. destruct Hin as [Hin _].
    apply in_map_iff in Hin. destruct Hin as (i & <- & _).
    apply calculate_db_zeros. unfold chunk_at. now apply slice_keeps. }
  destruct (db_values_of (chunk_size s) win starts) as [| d ds];
    [discriminate |].
  destruct (levels_all_equal floor_db d ds Hall) as [-> ->].
  rewrite (calculate_db_zeros win Hwz), Hlen. reflexivity.
Qed.

(** Witness of X15: a fresh buffer of 40 samples at 20 Hz, analysed over
    one second. *)
Lemma silent_buffer_measures_the_floor_witness :
  analyze_audio
    (mkMonitor 20 1 2 5 1 40 (repeat 0%R 40) 0 0 0 None false)
  = Some (mkStats (-80) (-80) (-80)
            (IZR (samples_needed
                    (mkMonitor 20 1 2 5 1 40 (repeat 0%R 40) 0 0 0 None false)
                    (analysis_window
                       (mkMonitor 20 1 2 5 1 40 (repeat 0%R 40) 0 0 0 None
                          false)))
             / IZR (sample_rate
                      (mkMonitor 20 1 2 5 1 40 (repeat 0%R 40) 0 0 0 None
                         false)))
            (overflow_count
               (mkMonitor 20 1 2 5 1 40 (repeat 0%R 40) 0 0 0 None false))).
Proof.
  apply silent_buffer_measures_the_floor.
  - by_evaluation.
  - by_evaluation.
  - apply Forall_forall. intros x Hx. now apply repeat_spec in Hx.
  - by_evaluation.
  - by_evaluation.
Defined.

(** ** The loop, further *)

(** X16. While [stream_start_time] is unset ([None], or the falsy 0.0) the
    loop never becomes active, whatever the clock says: every tick waits one
    second and nothing is published. *)
Theorem unset_start_time_never_activates :
  forall ticks s,
    ready_to_publish s = false ->
    time_is_set (stream_start_time s) = false ->
    ready_to_publish (fst (processing_loop ticks s)) = false
    /\ snd (processing_loop ticks s) = map (fun _ => Waited 1%Q) ticks.
Proof.
  induction ticks as [| t ticks IH]; intros s Hr Hs.
  - split; [exact Hr | reflexivity].
  - simpl processing_loop.
    destruct (tick_fields t s) as (Er & Es & Ea).
    assert (Ht : tick t s = (fst (deliver (tick_blocks t) s), [Waited 1%Q])).
    { unfold tick, processing_iteration. now rewrite Er, Hr, Es, Hs. }
    rewrite Ht.
    destruct (IH (fst (deliver (tick_blocks t) s))) as [IH1 IH2].
    + now rewrite Er.
    + now rewrite Es.
    + destruct (processing_loop ticks (fst (deliver (tick_blocks t) s)))
        as [s2 ev2]. cbn [fst snd] in *.
      split; [exact IH1 | now rewrite IH2].
Qed.

(** Witness of X16: a loop whose stream was never started, late in time. *)
Lemma unset_start_time_never_activates_witness :
  ready_to_publish
    (fst (processing_loop [mkTick [] 1000; mkTick [] 2000] full10)) = false
  /\ snd (processing_loop [mkTick [] 1000; mkTick [] 2000] full10)
     = map (fun _ => Waited 1%Q) [mkTick [] 1000; mkTick [] 2000].
Proof.
  apply (unset_start_time_never_activates
           [mkTick [] 1000; mkTick [] 2000] full10).
  - reflexivity.
  - reflexivity.
Defined.

Lemma same_config_measures s s' :
  same_config s s' ->
  chunk_size s' = chunk_size s
  /\ samples_needed s' (analysis_window s')
     = samples_needed s (analysis_window s)
  /\ publish_interval s' = publish_interval s.
Proof.
  intros (Hsr & _ & _ & Hpi & Haw & Hbs & _).
  unfold chunk_size. rewrite !samples_needed_min, Hsr, Haw, Hbs, Hpi.
  repeat split.
Qed.

(** X17. Once active, a loop on a well-formed object with a chunk length of
    at least 1 and a window of at least [max(1, chunk_size // 2)] samples
    publishes on every tick, whatever blocks the stream delivers in between
    and however their callbacks end: a tick analyses the buffer as the
    blocks left it, publishes these statistics and then waits
    [publish_interval], in that order and nothing else; so the events of the
    loop are, tick after tick, one publication followed by one wait. *)
Theorem active_loop_publishes_every_tick :
  forall ticks s,
    well_formed s ->
    ready_to_publish s = true ->
    1 <= chunk_size s ->
    1 <= samples_needed s (analysis_window s) ->
    chunk_size s / 2 <= samples_needed s (analysis_window s) ->
    (forall t,
        exists stats,
          analyze_audio (fst (deliver (tick_blocks t) s)) = Some stats
          /\ tick t s
             = (fst (deliver (tick_blocks t) s),
                [Published stats; Waited (publish_interval s)]))
    /\ exists published,
         length published = length ticks
         /\ snd (processing_loop ticks s)
            = flat_map
                (fun stats => [Published stats; Waited (publish_interval s)])
                published.
Proof.
  assert (Htick : forall t s,
             well_formed s ->
             ready_to_publish s = true ->
             1 <= chunk_size s ->
             1 <= samples_needed s (analysis_window s) ->
             chunk_size s / 2 <= samples_needed s (analysis_window s) ->
             exists stats,
               analyze_audio (fst (deliver (tick_blocks t) s)) = Some stats
               /\ tick t s
                  = (fst (deliver (tick_blocks t) s),
                     [Published stats; Waited (publish_interval s)])).
  { intros t s Hwf Hr Hcs Hn Hhalf.
    set (s1 := fst (deliver (tick_blocks t) s)).
    pose proof (deliver_well_formed (tick_blocks t) s Hwf) as Hwf1.
    pose proof (deliver_same_config (tick_blocks t) s) as Hcfg.
    destruct (same_config_measures s s1 Hcfg) as (Ecs & En & Epi).
    destruct (tick_fields t s) as (Er & _).
    fold s1 in Hwf1, Er.
    destruct (analyze_audio_returns_statistics s1 Hwf1) as [stats Hstats];
      try (rewrite ?Ecs, ?En; assumption).
    exists stats. split; [exact Hstats |].
    unfold tick, processing_iteration. fold s1.
    rewrite Er, Hr. cbn [negb]. unfold analyze_and_publish.
    now rewrite Hstats, Epi. }
  induction ticks as [| t ticks IH]; intros s Hwf Hr Hcs Hn Hhalf.
  - split; [intros t; now apply Htick |]. exists []. now split.
  - split; [intros t'; now apply Htick |].
    simpl processing_loop.
    set (s1 := fst (deliver (tick_blocks t) s)).
    pose proof (deliver_well_formed (tick_blocks t) s Hwf) as Hwf1.
    pose proof (deliver_same_config (tick_blocks t) s) as Hcfg.
    destruct (same_config_measures s s1 Hcfg) as (Ecs & En & Epi).
    destruct (tick_fields t s) as (Er & _).
    fold s1 in Hwf1, Er.
    destruct (Htick t s Hwf Hr Hcs Hn Hhalf) as (stats & _ & Ht).
    fold s1 in Ht. rewrite Ht.
    destruct (IH s1 Hwf1) as (_ & published & Hlen & Hev);
      try (rewrite ?Ecs, ?En; assumption).
    { now rewrite Er. }
    destruct (processing_loop ticks s1) as [s2 ev2]. cbn [fst snd] in *.
    exists (stats :: published). split; [simpl; now rewrite Hlen |].
    simpl. now rewrite Hev, Epi.
Qed.

(** Witness of X17: an active loop on a buffer of 40 samples at 20 Hz, two
    ticks, a block of two samples before the first. *)
Lemma active_loop_publishes_every_tick_witness :
  (forall t,
      exists stats,
        analyze_audio (fst (deliver (tick_blocks t) active40)) = Some stats
        /\ tick t active40
           = (fst (deliver (tick_blocks t) active40),
              [Published stats; Waited (publish_interval active40)]))
  /\ exists published,
       length published
       = length [mkTick [mono_block [1; 2]%R] 200; mkTick [] 205]
       /\ snd (processing_loop
                 [mkTick [mono_block [1; 2]%R] 200; mkTick [] 205] active40)
          = flat_map
              (fun stats =>
                 [Published stats; Waited (publish_interval active40)])
              published.
Proof.
  apply active_loop_publishes_every_tick.
  - by_evaluation.
  - reflexivity.
  - by_evaluation.
  - by_evaluation.
  - by_evaluation.
Defined.

(** ** The MQTT messages *)

Module MqttFacts.
Import String Mqtt.
Local Open Scope string_scope.

Lemma append_inj_l (p a b : string) : p ++ a = p ++ b -> a = b.
Proof.
  induction p as [| c p IH]; simpl; [easy |].
  intros [= H]. now apply IH.
Qed.

(** X18. The topics a sensor's state is published on are the ones announced
    to Home Assistant: [publish_data] sends exactly three messages, the
    formatted [min_db], [max_db] and [avg_db] in this order, not retained,
    each on the [state_topic] of the discovery configuration of the sensor
    of that name; [duration] and [overflows] are not sent, and no data means
    no message. *)
Theorem state_topics_match_discovery :
  forall json_dumps format_1f st data,
    map topic (publish_data format_1f st (Some data))
    = map (fun sensor => state_topic (config_of st sensor)) sensors
    /\ map payload (publish_data format_1f st (Some data))
       = [format_1f (min_db data); format_1f (max_db data);
          format_1f (avg_db data)]
    /\ map retain (publish_data format_1f st (Some data))
       = [false; false; false]
    /\ publish_data format_1f st None = []
    /\ map payload (publish_discovery json_dumps st)
       = map (fun sensor => json_dumps (config_of st sensor)) sensors.
Proof. intros. repeat split. Qed.

(** X19. The three discovery messages are retained and never collide: for
    every device id and topic prefix their topics are pairwise distinct, and
    so are the [unique_id]s and the [state_topic]s they announce.  A failed
    connection ([rc <> 0]) announces nothing. *)
Theorem discovery_entities_are_distinct :
  forall json_dumps st,
    NoDup (map topic (publish_discovery json_dumps st))
    /\ NoDup (map (fun sensor => unique_id (config_of st sensor)) sensors)
    /\ NoDup (map (fun sensor => state_topic (config_of st sensor)) sensors)
    /\ Forall (fun m => retain m = true) (publish_discovery json_dumps st)
    /\ on_mqtt_connect json_dumps st 0 = publish_discovery json_dumps st
    /\ (forall rc, rc <> 0%Z -> on_mqtt_connect json_dumps st rc = []).
Proof.
  intros json_dumps st.
  split; [| split; [| split; [| split; [| split]]]].
  - unfold publish_discovery, discovery_topic, sensors. cbn [map topic].
    cbn [sensor_name].
    repeat constructor; cbn [In]; intros H;
      repeat match goal with
        | H : _ \/ _ |- _ => destruct H
        | H : False |- _ => contradiction
        end;
      match goal with
      | H : _ = _ |- _ =>
          apply append_inj_l, append_inj_l, append_inj_l in H; discriminate
      end.
  - unfold config_of, sensors. cbn [map unique_id sensor_name].
    repeat constructor; cbn [In]; intros H;
      repeat match goal with
        | H : _ \/ _ |- _ => destruct H
        | H : False |- _ => contradiction
        end;
      match goal with
      | H : _ = _ |- _ =>
          apply append_inj_l, append_inj_l in H; discriminate
      end.
  - unfold config_of, sensors. cbn [map state_topic sensor_name].
    repeat constructor; cbn [In]; intros H;
      repeat match goal with
        | H : _ \/ _ |- _ => destruct H
        | H : False |- _ => contradiction
        end;
      match goal with
      | H : _ = _ |- _ =>
          apply append_inj_l, append_inj_l, append_inj_l, append_inj_l in H;
          discriminate
      end.
  - repeat constructor.
  - reflexivity.
  - intros rc Hrc. unfold on_mqtt_connect.
    destruct (Z.eqb_spec rc 0); [contradiction | reflexivity].
Qed.

(** Witness of X19: a connection refused with the return code 5. *)
Lemma discovery_entities_are_distinct_witness :
  on_mqtt_connect (fun _ => "") (mkSettings "noisemeter" "noisemeter_001"
                                   "Noise Meter") 5 = [].
Proof.
  apply (discovery_entities_are_distinct (fun _ => "")
           (mkSettings "noisemeter" "noisemeter_001" "Noise Meter")).
  discriminate.
Defined.

End MqttFacts.
